(** * VPSA column simulator (PSAloop_MTC.py): model and properties

    A shallow embedding of the four-step vacuum pressure-swing adsorption
    simulator: the dual-site Langmuir isotherm, the finite-volume right-hand
    side assembled by [build_model], the four-step cycle, the
    cyclic-steady-state loop and the mesh sweep of the main script.

    Python floats are idealised as real numbers ([R]); [np.exp] and [ca.exp]
    are both the real exponential, [ca.tanh] the real hyperbolic tangent and
    [np.linalg.norm] the Euclidean norm.  Where a property of the isotherm
    depends on what a float can hold (overflow of the exponential, division
    by zero), the isotherm is also given over the range of the doubles and
    related to the one over the reals.  The CVODES integrator built by
    [ca.integrator] is an external collaborator: it is a parameter of the
    development, and it may fail. *)

From Stdlib Require Import String.
From Stdlib Require Import Reals Lra Lia List Arith ZArith.
Import ListNotations.

Local Open Scope R_scope.

(** ** Attributes set by [__init__] and [setup_parameters] *)

Module self.

Definition P_scale : R := 1.0e5.

Definition L : R := 1.0.
Definition r_in : R := 0.1445.
Definition A : R := PI * r_in ^ 2.
Definition eps : R := 0.37.
Definition eps_p : R := 0.0.
Definition r_p : R := 1.0e-3.
Definition rho_s : R := 1130.0.

Definition R_gas : R := 8.314.
Definition T_ref : R := 298.15.
Definition Cp_g : R := 30.7.
Definition Cp_s : R := 1070.0.
Definition mu : R := 1.72e-5.

Definition DeltaH : list R := [-36165.935; -15800.0].

(* Dual-site Langmuir (CO2) *)
Definition q_sb0 : R := 3.09.
Definition b0_0 : R := 8.65e-7.
Definition dU_b0 : R := -36641.21.
Definition q_sd0 : R := 2.54.
Definition d0_0 : R := 2.63e-8.
Definition dU_d0 : R := -35690.66.

(* Dual-site Langmuir (N2) *)
Definition q_sb1 : R := 5.84.
Definition b0_1 : R := 2.50e-6.
Definition dU_b1 : R := -1.58e4.

Definition k_LDF : R := 0.02477876.

Definition K_darcy : R :=
  (r_p * 2) ^ 2 * eps ^ 3 / (150 * (1 - eps) ^ 2 * mu).

End self.

(** ** The isotherm, symbolic and numeric *)

(** [get_isotherm], applied to one cell (the CasADi operations are
    elementwise). *)
Definition get_isotherm (c_total y_co2 T : R) : R * R :=
  let c0 := c_total * y_co2 in
  let c1 := c_total * (1 - y_co2) in
  let b0 := self.b0_0 * exp (- self.dU_b0 / (self.R_gas * T)) in
  let d0 := self.d0_0 * exp (- self.dU_d0 / (self.R_gas * T)) in
  let b1 := self.b0_1 * exp (- self.dU_b1 / (self.R_gas * T)) in
  let denom1 := 1 + b0 * c0 + b1 * c1 in
  let denom2 := 1 + d0 * c0 in
  let q0 := self.q_sb0 * b0 * c0 / denom1 + self.q_sd0 * d0 * c0 / denom2 in
  let q1 := self.q_sb1 * b1 * c1 / denom1 in
  (q0, q1).

Definition get_isotherm_numeric (P y_co2 T : R) : R * R :=
  let c_total := P / (self.R_gas * T) in
  let c0 := c_total * y_co2 in
  let c1 := c_total * (1 - y_co2) in
  let b0 := self.b0_0 * exp (- self.dU_b0 / (self.R_gas * T)) in
  let d0 := self.d0_0 * exp (- self.dU_d0 / (self.R_gas * T)) in
  let b1 := self.b0_1 * exp (- self.dU_b1 / (self.R_gas * T)) in
  let denom1 := 1 + b0 * c0 + b1 * c1 in
  let denom2 := 1 + d0 * c0 in
  let q0 := self.q_sb0 * b0 * c0 / denom1 + self.q_sd0 * d0 * c0 / denom2 in
  let q1 := self.q_sb1 * b1 * c1 / denom1 in
  (q0, q1).

(** The spec's reading of the isotherm: an Arrhenius affinity
    [b(T) = b0 * exp (- dU / (R T))] per site and species, and the two
    Langmuir loadings written with the repository's parameter values. *)
Definition arrhenius (pre dU T : R) : R := pre * exp (- dU / (8.314 * T)).

Definition b0_of (T : R) : R := arrhenius 8.65e-7 (-36641.21) T.
Definition d0_of (T : R) : R := arrhenius 2.63e-8 (-35690.66) T.
Definition b1_of (T : R) : R := arrhenius 2.50e-6 (-1.58e4) T.

(** The two denominators of the isotherm (lines 66-67 and 83-84), as
    functions of the partial concentrations. *)
Definition denom1_of (c0 c1 T : R) : R := 1 + b0_of T * c0 + b1_of T * c1.
Definition denom2_of (c0 T : R) : R := 1 + d0_of T * c0.

Definition langmuir_q0 (c0 c1 T : R) : R :=
  3.09 * b0_of T * c0 / (1 + b0_of T * c0 + b1_of T * c1)
  + 2.54 * d0_of T * c0 / (1 + d0_of T * c0).

Definition langmuir_q1 (c0 c1 T : R) : R :=
  5.84 * b1_of T * c1 / (1 + b0_of T * c0 + b1_of T * c1).

(** ** Vectors

    A CasADi or NumPy vector is a list of reals; the source only reads
    indices that are in range, where [v @ i] is the element. *)

Notation "v @ i" := (nth i v 0) (at level 9, i at level 9, format "v @ i").

(** The Python slice [v[a:b]]. *)
Definition slice (a b : nat) (v : list R) : list R :=
  firstn (b - a) (skipn a v).

(** Item assignment [v[i] = e] on a vector that has the index. *)
Fixpoint upd (i : nat) (e : R) (v : list R) : list R :=
  match v, i with
  | [], _ => []
  | _ :: t, O => e :: t
  | h :: t, S j => h :: upd j e t
  end.

Fixpoint fill_from (i a b : nat) (e : R) (v : list R) : list R :=
  match v with
  | [] => []
  | h :: t =>
      (if andb (a <=? i)%nat (i <? b)%nat then e else h) :: fill_from (S i) a b e t
  end.

(** The NumPy slice assignment of a scalar, [v[a:b] = e]. *)
Definition slice_fill (a b : nat) (e : R) (v : list R) : list R :=
  fill_from 0 a b e v.

Fixpoint map2 {X Y Z : Type} (f : X -> Y -> Z) (a : list X) (b : list Y)
  : list Z :=
  match a, b with
  | h1 :: t1, h2 :: t2 => f h1 h2 :: map2 f t1 t2
  | _, _ => []
  end.

Fixpoint map3 {X Y Z W : Type} (f : X -> Y -> Z -> W)
  (a : list X) (b : list Y) (c : list Z) : list W :=
  match a, b, c with
  | h1 :: t1, h2 :: t2, h3 :: t3 => f h1 h2 h3 :: map3 f t1 t2 t3
  | _, _, _ => []
  end.

(** [np.linalg.norm] of a vector, and the difference of two vectors of one
    length (the integrator returns [xf] with the dimension of [x0]). *)
Definition norm (v : list R) : R :=
  sqrt (fold_right (fun e s => e * e + s) 0 v).

Definition vsub (a b : list R) : list R := map2 Rminus a b.

(** ** Exceptions *)

Inductive exn : Type :=
| ZeroDivisionError
| IndexError
| RuntimeError.

Inductive result (X : Type) : Type :=
| Ok (a : X)
| Raise (e : exn).

Arguments Ok {X} a.
Arguments Raise {X} e.

Definition bind {X Y : Type} (m : result X) (k : X -> result Y) : result Y :=
  match m with
  | Ok a => k a
  | Raise e => Raise e
  end.

Notation "a <- m ;; k" := (bind m (fun a => k))
  (at level 61, m at next level, right associativity).

(** ** [VPSA_Robust.build_model]: the right-hand side of the column model *)

(** The CasADi comparison [a < b], and [ca.if_else] as CasADi defines it on
    [SX] expressions: the sum of the two arms, each kept under its condition
    and replaced by zero otherwise. *)
Definition lt (a b : R) : bool := if Rlt_dec a b then true else false.

Definition if_else_zero (c : bool) (a : R) : R := if c then a else 0.

Definition if_else (c : bool) (a b : R) : R :=
  if_else_zero c a + if_else_zero (negb c) b.

Module build_model.
Section rhs.

(** Number of control volumes, state [x], parameters
    [u = [type, duration, dummy, P_L, P_H]] and scaled time [tau]. *)
Variable N : nat.
Variables x u : list R.
Variable tau : R.

Definition nx : nat := 5 * N.
Definition y : list R := slice (0 * N) (1 * N) x.
Definition P_bar : list R := slice (1 * N) (2 * N) x.
Definition T : list R := slice (2 * N) (3 * N) x.
Definition q0 : list R := slice (3 * N) (4 * N) x.
Definition q1 : list R := slice (4 * N) (5 * N) x.
Definition P : list R := map (fun p => p * self.P_scale) P_bar.

Definition step_type : R := u@0.
Definition duration : R := u@1.
Definition P_low : R := u@3.
Definition P_high : R := u@4.

(* Time Scaling *)
Definition t_phys : R := tau * duration.

(* Smooth BC *)
Definition lam : R := 5.0 / (duration + 1e-3).
Definition P_bound_press : R :=
  P_high - (P_high - P_low) * exp (- lam * t_phys).
Definition P_bound_blow : R :=
  P_low + (P_high - P_low) * exp (- lam * t_phys).
Definition P_vac : R := P_low * 0.5.
Definition P_bound_evac : R :=
  P_vac + (P_low - P_vac) * exp (- lam * t_phys).

Definition P_bound : R :=
  if_else (lt step_type 0.5) P_bound_press
    (if_else (lt step_type 1.5) P_high
       (if_else (lt step_type 2.5) P_bound_blow P_bound_evac)).

Definition dz : R := self.L / INR N.
Definition C_total : list R :=
  map2 (fun p t => p / (self.R_gas * t)) P T.

(* Smooth Velocity Calculation *)
Definition v_max : R := 5.0.

Definition v_interior (i : nat) : R :=
  let grad_P := (P@i - P@(i - 1)) / dz in
  v_max * tanh (- self.K_darcy * grad_P / v_max).

Definition v_in_raw : R := - self.K_darcy * (P@0 - P_bound) / (dz / 2).
Definition v_out_raw : R :=
  - self.K_darcy * (P_bound - P@(N - 1)) / (dz / 2).
Definition v_in : R := v_max * tanh (v_in_raw / v_max).
Definition v_out : R := v_max * tanh (v_out_raw / v_max).

Definition v0 : R :=
  if_else (lt step_type 0.5) v_in
    (if_else (lt step_type 1.5) 1.0
       (if_else (lt step_type 2.5) 0.0 v_in)).
Definition vN : R :=
  if_else (lt step_type 0.5) 0.0
    (if_else (lt step_type 1.5) v_out
       (if_else (lt step_type 2.5) v_out 0.0)).

Definition v_face : list R :=
  let zeros := repeat 0 (N + 1) in
  let inner :=
    fold_left (fun vf i => upd i (v_interior i) vf) (seq 1 (N - 1)) zeros in
  upd N vN (upd 0 v0 inner).

(* ODE Construction *)
Definition q_star : list (R * R) := map3 get_isotherm C_total y T.
Definition q0_star : list R := map fst q_star.
Definition q1_star : list R := map snd q_star.
Definition rate0 : list R :=
  map2 (fun qs q => self.k_LDF * (qs - q)) q0_star q0.
Definition rate1 : list R :=
  map2 (fun qs q => self.k_LDF * (qs - q)) q1_star q1.
Definition S_mass : list R :=
  map2 (fun r0 r1 => - (1 - self.eps) / self.eps * (r0 + r1)) rate0 rate1.
Definition Q_gen : list R :=
  map2 (fun r0 r1 =>
          - (self.DeltaH@0 * r0 + self.DeltaH@1 * r1)
            * self.rho_s * (1 - self.eps) / self.eps)
       rate0 rate1.

Definition v_smooth : R := 0.1.

(** The body of the loop over the control volumes, one definition per
    local variable, at cell [i]. *)
Definition vl (i : nat) : R := v_face@i.
Definition vr (i : nat) : R := v_face@(i + 1).

Definition phi_l (i : nat) : R := 0.5 * (1 + tanh (vl i / v_smooth)).
Definition phi_r (i : nat) : R := 0.5 * (1 + tanh (vr i / v_smooth)).

Definition yL (i : nat) : R :=
  if (i =? 0)%nat
  then phi_l i * 0.15 + (1 - phi_l i) * y@i
  else phi_l i * y@(i - 1) + (1 - phi_l i) * y@i.
Definition TL (i : nat) : R :=
  if (i =? 0)%nat
  then phi_l i * 298.15 + (1 - phi_l i) * T@i
  else phi_l i * T@(i - 1) + (1 - phi_l i) * T@i.

Definition yR (i : nat) : R :=
  if (i =? N - 1)%nat
  then phi_r i * y@i + (1 - phi_r i) * y@i
  else phi_r i * y@i + (1 - phi_r i) * y@(i + 1).
Definition TR (i : nat) : R :=
  if (i =? N - 1)%nat
  then phi_r i * T@i + (1 - phi_r i) * T@i
  else phi_r i * T@i + (1 - phi_r i) * T@(i + 1).

Definition rhoL (i : nat) : R := P@i / (self.R_gas * TL i).
Definition rhoR (i : nat) : R := P@i / (self.R_gas * TR i).
Definition Fin (i : nat) : R := vl i * rhoL i.
Definition Fout (i : nat) : R := vr i * rhoR i.

Definition div_m (i : nat) : R := (Fout i - Fin i) / dz.
Definition div_y (i : nat) : R := (Fout i * yR i - Fin i * yL i) / dz.

Definition Cp_eff (i : nat) : R :=
  self.eps * C_total@i * self.Cp_g
  + (1 - self.eps) * self.rho_s * self.Cp_s.
Definition dT (i : nat) : R :=
  (- (Fout i * self.Cp_g * TR i - Fin i * self.Cp_g * TL i) / dz + Q_gen@i)
  / Cp_eff i.

Definition RHS_P (i : nat) : R := - div_m i + S_mass@i.
Definition dP (i : nat) : R :=
  self.R_gas * T@i * RHS_P i + (P@i / T@i) * dT i.

Definition S_y (i : nat) : R := - (1 - self.eps) / self.eps * rate0@i.
Definition dy (i : nat) : R :=
  (- (div_y i - y@i * div_m i) + (S_y i - y@i * S_mass@i)) / C_total@i.

Definition dy_dt : list R := map dy (seq 0 N).
Definition dP_dt : list R := map dP (seq 0 N).
Definition dT_dt : list R := map dT (seq 0 N).
Definition dq0_dt : list R := map (fun i => rate0@i) (seq 0 N).
Definition dq1_dt : list R := map (fun i => rate1@i) (seq 0 N).

Definition rhs : list R :=
  dy_dt ++ map (fun d => d / self.P_scale) dP_dt ++ dT_dt
  ++ dq0_dt ++ dq1_dt.
Definition rhs_scaled : list R := map (fun r => r * duration) rhs.

End rhs.
End build_model.

(** ** The integrator interface of CasADi *)

(** [{'x': x, 'p': u, 't': tau, 'ode': rhs_scaled}]: the dimensions of the
    symbols [x] and [u], and the right-hand side as a function of them and
    of [tau]. *)
Record dae_t : Type := {
  dae_x : nat;
  dae_p : nat;
  dae_ode : list R -> list R -> R -> list R
}.

Record opts_t : Type := {
  abstol : R;
  reltol : R;
  max_num_steps : Z;
  nonlin_conv_coeff : R;
  linear_solver : string
}.

(** An integrator object, called as [integrator(x0=x0, p=p_val)]: the final
    state [xf], or the exception CasADi raises when CVODES fails. *)
Definition integrator_t : Type := list R -> list R -> result (list R).

(** [ca.integrator(name, plugin, dae, t0, tf, opts)]. *)
Definition ca_integrator_t : Type :=
  string -> string -> dae_t -> R -> R -> opts_t -> integrator_t.

(** ** The class [VPSA_Robust] *)

Module VPSA_Robust.

Record t : Type := {
  N : nat;
  dae : dae_t;
  integrator : integrator_t
}.

(** [VPSA_Robust(N=n)]: [__init__] runs [setup_parameters] and
    [build_model]; [dz = self.L / N] divides by zero when [N = 0]. *)
Definition init (ca_integrator : ca_integrator_t) (n : nat) : result t :=
  if (n =? 0)%nat then Raise ZeroDivisionError
  else
    let dae := {| dae_x := build_model.nx n;
                  dae_p := 5;
                  dae_ode := build_model.rhs_scaled n |} in
    let opts := {| abstol := 1e-4;
                   reltol := 1e-4;
                   max_num_steps := 20000%Z;
                   nonlin_conv_coeff := 0.1;
                   linear_solver := "csparse"%string |} in
    Ok {| N := n;
          dae := dae;
          integrator := ca_integrator "I"%string "cvodes"%string dae 0.0 1.0 opts |}.

Definition simulate_step (self : t) (x0 : list R) (type_id duration P_L P_H : R)
  : result (list R) :=
  let p_val := [type_id; duration; 0; P_L; P_H] in
  res <- integrator self x0 p_val ;;
  Ok res.

Definition design : list R := [20.0; 15.0; 30.0; 40.0].

(** The four steps of one pass through the loop of [simulate_css]
    (lines 250-253). *)
Definition run_cycle (self : t) (x : list R) : result (list R) :=
  x <- simulate_step self x 0 design@0 1e4 1e5 ;;
  x <- simulate_step self x 1 design@1 1e4 1e5 ;;
  x <- simulate_step self x 2 design@2 1e4 1e5 ;;
  x <- simulate_step self x 3 design@3 1e4 1e5 ;;
  Ok x.

(** [for i in range(cycles)], with [remaining] passes left. *)
Fixpoint css_loop (self : t) (remaining : nat) (x errors : list R)
  : result (list R * list R) :=
  match remaining with
  | O => Ok (errors, x)
  | S remaining' =>
      let x_start := x in
      x <- run_cycle self x ;;
      let err := norm (vsub x x_start) / (norm x_start + 1e-8) in
      let errors := errors ++ [err] in
      if lt err 1e-3 then Ok (errors, x)
      else css_loop self remaining' x errors
  end.

(** The state built before the loop (lines 232-243). *)
Definition initial_state (self : t) : list R :=
  let y_init_val := 0.0 in
  let P_init_val := 1e4 in
  let T_init_val := 298.15 in
  let '(q0_eq, q1_eq) :=
    get_isotherm_numeric P_init_val y_init_val T_init_val in
  let x := repeat 0 (5 * N self) in
  let x := slice_fill (0 * N self) (1 * N self) y_init_val x in
  let x := slice_fill (1 * N self) (2 * N self) (P_init_val / self.P_scale) x in
  let x := slice_fill (2 * N self) (3 * N self) T_init_val x in
  let x := slice_fill (3 * N self) (4 * N self) q0_eq x in
  let x := slice_fill (4 * N self) (5 * N self) q1_eq x in
  x.

Definition simulate_css (self : t) (cycles : nat) (make_plot : bool)
  : result (list R * list R) :=
  css_loop self cycles (initial_state self) [].

End VPSA_Robust.

(** ** The main script: the sweep over the mesh sizes

    The wall-clock readings ([time.time()]) and the plots are left out. *)

Module main.

Definition N_values : list nat := [15; 20; 25; 30; 35; 40]%nat.

(** A value of the [results] dictionary and a printed row of the table. *)
Record entry : Type := {
  cycles : nat;
  final_error : R;
  x : list R
}.

Record row : Type := {
  row_N : nat;
  row_cycles : nat;
  row_final_error : R
}.

(** [errs[-1]]. *)
Definition last_item (errs : list R) : result R :=
  match errs with
  | [] => Raise IndexError
  | _ :: _ => Ok (last errs 0)
  end.

(** [results[n_val] = e] on a dictionary kept in insertion order. *)
Fixpoint dict_set (results : list (nat * entry)) (n_val : nat) (e : entry)
  : list (nat * entry) :=
  match results with
  | [] => [(n_val, e)]
  | (k, e') :: rest =>
      if (k =? n_val)%nat then (k, e) :: rest
      else (k, e') :: dict_set rest n_val e
  end.

(** One pass of [for n_val in N_values]: the model is built and run for
    1000 cycles at most. *)
Definition run_one (ca_integrator : ca_integrator_t) (n_val : nat)
  : result (entry * row) :=
  sim <- VPSA_Robust.init ca_integrator n_val ;;
  r <- VPSA_Robust.simulate_css sim 1000 false ;;
  let '(errs, final_x) := r in
  fe <- last_item errs ;;
  Ok ({| cycles := length errs; final_error := fe; x := final_x |},
      {| row_N := n_val; row_cycles := length errs; row_final_error := fe |}).

(** The loop of the script.  There is no [try]: an exception of a pass ends
    the loop, and what was printed before it stays printed. *)
Fixpoint sweep (ca_integrator : ca_integrator_t) (Ns : list nat)
  (results : list (nat * entry)) (out : list row)
  : list row * result (list (nat * entry)) :=
  match Ns with
  | [] => (out, Ok results)
  | n_val :: rest =>
      match run_one ca_integrator n_val with
      | Raise e => (out, Raise e)
      | Ok (e, r) =>
          sweep ca_integrator rest (dict_set results n_val e) (out ++ [r])
      end
  end.

Definition run (ca_integrator : ca_integrator_t)
  : list row * result (list (nat * entry)) :=
  sweep ca_integrator N_values [] [].

End main.

(** ** Reference definitions for the statements *)

(** A process step of the spec: step type, duration, low and high pressure
    bound; and the cycle of the spec, its four steps in order. *)
Record process_step : Type := {
  ps_type : R;
  ps_duration : R;
  ps_P_low : R;
  ps_P_high : R
}.

Definition the_cycle : list process_step :=
  [ {| ps_type := 0; ps_duration := 20; ps_P_low := 1e4; ps_P_high := 1e5 |};
    {| ps_type := 1; ps_duration := 15; ps_P_low := 1e4; ps_P_high := 1e5 |};
    {| ps_type := 2; ps_duration := 30; ps_P_low := 1e4; ps_P_high := 1e5 |};
    {| ps_type := 3; ps_duration := 40; ps_P_low := 1e4; ps_P_high := 1e5 |} ].

(** One call of the step integrator on the outcome of the steps before. *)
Definition advance (self : VPSA_Robust.t) (st : result (list R))
  (s : process_step) : result (list R) :=
  x <- st ;;
  VPSA_Robust.integrator self x
    [ps_type s; ps_duration s; 0; ps_P_low s; ps_P_high s].

Definition apply_steps (self : VPSA_Robust.t) (steps : list process_step)
  (x : list R) : result (list R) :=
  fold_left (advance self) steps (Ok x).

(** The relative change of the state over one cycle, as the loop computes
    it. *)
Definition rel_err (x x_start : list R) : R :=
  norm (vsub x x_start) / (norm x_start + 1e-8).

(** The residual of a cycle in the spec's words,
    [||x - x_start|| / (||x_start|| + 1e-8)], written out: the square root
    of the sum of the squared entrywise differences, over the square root
    of the sum of the squared entries of the state before the cycle plus
    1e-8. *)
Definition sum_of_squares (v : list R) : R :=
  fold_right Rplus 0 (map (fun e => e * e) v).

Definition difference (x x_start : list R) : list R :=
  map (fun p => fst p - snd p) (combine x x_start).

Definition residual (x x_start : list R) : R :=
  sqrt (sum_of_squares (difference x x_start))
  / (sqrt (sum_of_squares x_start) + 1e-8).

(** The residual of cycle [k] along a sequence of states [xs], [xs 0] being
    the initial state and [xs k] the state after [k] cycles. *)
Definition residual_at (xs : nat -> list R) (k : nat) : R :=
  residual (xs k) (xs (k - 1)%nat).

(** The cycles of a run along [xs] succeed: cycle [k + 1] takes [xs k] to
    [xs (k + 1)] whenever the loop gets to it, that is when it is within
    the budget and no cycle before it met the tolerance.  Nothing is asked
    of the integrator on any other state. *)
Definition cycles_succeed_along (self : VPSA_Robust.t) (xs : nat -> list R)
  (cycles : nat) : Prop :=
  forall k,
    (k < cycles)%nat ->
    (forall j, (1 <= j <= k)%nat -> ~ residual_at xs j < 1e-3) ->
    VPSA_Robust.run_cycle self (xs k) = Ok (xs (S k)).

Definition state_at (cyc : list R -> list R) (x0 : list R) (k : nat) : list R :=
  Nat.iter k cyc x0.

(** Integrators for the examples: one that returns its initial state, one
    that halves a state of five entries and fails on any other state, and
    one that fails on the 75 states of the 15-cell model and returns the
    initial state on every other model. *)
Definition steady_integrator : ca_integrator_t :=
  fun _ _ _ _ _ _ x0 _ => Ok x0.

Definition picky_integrator : integrator_t :=
  fun x0 _ =>
    if (length x0 =? 5)%nat then Ok (map (fun e => e / 2) x0)
    else Raise RuntimeError.

Definition fails_on_75 : ca_integrator_t :=
  fun _ _ dae _ _ _ x0 _ =>
    if (dae_x dae =? 75)%nat then Raise RuntimeError else Ok x0.

(** The reading of the spec for the sweep: a mesh size whose own run
    succeeds gets its row whatever happens at the other sizes. *)
Definition failures_isolated (ca_integrator : ca_integrator_t) : Prop :=
  forall n_val e r,
    In n_val main.N_values ->
    main.run_one ca_integrator n_val = Ok (e, r) ->
    In r (fst (main.run ca_integrator)).

(** A step of the cycle fails at state [x]: the steps before it succeed
    and the integrator raises [e] on the step. *)
Definition step_fails (self : VPSA_Robust.t) (x : list R) (e : exn) : Prop :=
  exists before s after xj,
    the_cycle = before ++ s :: after
    /\ apply_steps self before x = Ok xj
    /\ advance self (Ok xj) s = Raise e.

(** A run of at most [k] cycles from [x] meets a failing step: in its first
    cycle, or in a later one reached through cycles that neither failed nor
    met the tolerance. *)
Inductive run_fails (self : VPSA_Robust.t) : nat -> list R -> exn -> Prop :=
| fails_now k x e :
    step_fails self x e -> run_fails self (S k) x e
| fails_later k x x' e :
    VPSA_Robust.run_cycle self x = Ok x' ->
    ~ rel_err x' x < 1e-3 ->
    run_fails self k x' e ->
    run_fails self (S k) x e.

(** A one-cell model object with the integrator that halves states of
    five entries. *)
Definition picky_sim : VPSA_Robust.t :=
  {| VPSA_Robust.N := 1;
     VPSA_Robust.dae := {| dae_x := 5; dae_p := 5;
                           dae_ode := build_model.rhs_scaled 1 |};
     VPSA_Robust.integrator := picky_integrator |}.

Definition halve4 (x : list R) : list R :=
  map (fun e => e / 2) (map (fun e => e / 2)
    (map (fun e => e / 2) (map (fun e => e / 2) x))).

(** ** Reading the results after the sweep *)

(** [results[n]] as the plots read it (lines 281 and 289); [None] stands for
    the [KeyError] of a missing key. *)
Fixpoint dict_get (results : list (nat * main.entry)) (n_val : nat)
  : option main.entry :=
  match results with
  | [] => None
  | (k, e) :: rest => if (k =? n_val)%nat then Some e else dict_get rest n_val
  end.

(** A pass of the sweep succeeds. *)
Definition pass_succeeds (ca_integrator : ca_integrator_t) (n_val : nat)
  : Prop :=
  exists r, main.run_one ca_integrator n_val = Ok r.

(** The tolerance of the loop is not met by a residual. *)
Definition above_tolerance (err : R) : Prop := ~ err < 1e-3.

(** The reading of "smooth, not hard" for the boundary pressure: as a
    function of the step-type code it has no jump. *)
Definition smooth_in_code (duration dummy P_L P_H tau : R) : Prop :=
  continuity
    (fun s => build_model.P_bound [s; duration; dummy; P_L; P_H] tau).

(** ** Doubles: the range of the floats

    Where a property depends on what a float can hold, the floats are read
    as reals with the range of IEEE 754 doubles: a result of magnitude
    [DBL_OVERFLOW] or more is an infinity, the operations on infinities
    follow IEEE 754, and an undefined operation gives NaN.  Rounding,
    underflow and the sign of zero are left out: a finite result is kept
    exact. *)

Inductive double : Type :=
| Finite (r : R)
| Inf (positive : bool)
| NaN.

(** The least magnitude that rounds to an infinity. *)
Definition DBL_OVERFLOW : R := 2 ^ 1024 - 2 ^ 970.

Definition in_range (r : R) : Prop := - DBL_OVERFLOW < r < DBL_OVERFLOW.

Definition to_double (r : R) : double :=
  if Rle_dec DBL_OVERFLOW r then Inf true
  else if Rle_dec r (- DBL_OVERFLOW) then Inf false
  else Finite r.

Definition is_pos (r : R) : bool := if Rlt_dec 0 r then true else false.
Definition is_zero (r : R) : bool := if Req_dec_T r 0 then true else false.

Definition dneg (a : double) : double :=
  match a with
  | Finite x => Finite (- x)
  | Inf s => Inf (negb s)
  | NaN => NaN
  end.

Definition dadd (a b : double) : double :=
  match a, b with
  | NaN, _ => NaN
  | _, NaN => NaN
  | Finite x, Finite y => to_double (x + y)
  | Inf s, Finite _ => Inf s
  | Finite _, Inf s => Inf s
  | Inf s, Inf s' => if Bool.eqb s s' then Inf s else NaN
  end.

Definition dsub (a b : double) : double := dadd a (dneg b).

Definition dmul (a b : double) : double :=
  match a, b with
  | NaN, _ => NaN
  | _, NaN => NaN
  | Finite x, Finite y => to_double (x * y)
  | Inf s, Finite y => if is_zero y then NaN else Inf (Bool.eqb s (is_pos y))
  | Finite x, Inf s => if is_zero x then NaN else Inf (Bool.eqb s (is_pos x))
  | Inf s, Inf s' => Inf (Bool.eqb s s')
  end.

(** The division of NumPy and of C: a division by zero gives an infinity
    or NaN. *)
Definition ddiv (a b : double) : double :=
  match a, b with
  | NaN, _ => NaN
  | _, NaN => NaN
  | Finite x, Finite y =>
      if is_zero y then (if is_zero x then NaN else Inf (is_pos x))
      else to_double (x / y)
  | Finite _, Inf _ => Finite 0
  | Inf s, Finite y => Inf (if is_zero y then s else Bool.eqb s (is_pos y))
  | Inf _, Inf _ => NaN
  end.

(** The division of two Python floats: a zero divisor raises. *)
Definition pydiv (a b : double) : result double :=
  match b with
  | Finite y => if is_zero y then Raise ZeroDivisionError else Ok (ddiv a b)
  | _ => Ok (ddiv a b)
  end.

(** [ca.exp] and [np.exp]: an overflow gives the infinity. *)
Definition dexp (a : double) : double :=
  match a with
  | Finite x => to_double (exp x)
  | Inf true => Inf true
  | Inf false => Finite 0
  | NaN => NaN
  end.

Declare Scope double_scope.
Delimit Scope double_scope with dbl.
Notation "a + b" := (dadd a b) : double_scope.
Notation "a - b" := (dsub a b) : double_scope.
Notation "a * b" := (dmul a b) : double_scope.
Notation "- a" := (dneg a) : double_scope.

(** [get_isotherm] called on Python floats: every quotient is a division of
    two floats. *)
Definition get_isotherm_float (c_total y_co2 T : double)
  : result (double * double) :=
  let c0 := (c_total * y_co2)%dbl in
  let c1 := (c_total * (Finite 1 - y_co2))%dbl in
  e <- pydiv (- Finite self.dU_b0)%dbl (Finite self.R_gas * T)%dbl ;;
  let b0 := (Finite self.b0_0 * dexp e)%dbl in
  e <- pydiv (- Finite self.dU_d0)%dbl (Finite self.R_gas * T)%dbl ;;
  let d0 := (Finite self.d0_0 * dexp e)%dbl in
  e <- pydiv (- Finite self.dU_b1)%dbl (Finite self.R_gas * T)%dbl ;;
  let b1 := (Finite self.b0_1 * dexp e)%dbl in
  let denom1 := (Finite 1 + b0 * c0 + b1 * c1)%dbl in
  let denom2 := (Finite 1 + d0 * c0)%dbl in
  t1 <- pydiv (Finite self.q_sb0 * b0 * c0)%dbl denom1 ;;
  t2 <- pydiv (Finite self.q_sd0 * d0 * c0)%dbl denom2 ;;
  let q0 := (t1 + t2)%dbl in
  q1 <- pydiv (Finite self.q_sb1 * b1 * c1)%dbl denom1 ;;
  Ok (q0, q1).

(** [get_isotherm_numeric] called on Python floats: the quotients by
    [R_gas * T] are divisions of two floats, [np.exp] returns a NumPy
    scalar and the quotients by the denominators are NumPy divisions. *)
Definition get_isotherm_numeric_float (P y_co2 T : double)
  : result (double * double) :=
  c_total <- pydiv P (Finite self.R_gas * T)%dbl ;;
  let c0 := (c_total * y_co2)%dbl in
  let c1 := (c_total * (Finite 1 - y_co2))%dbl in
  e <- pydiv (- Finite self.dU_b0)%dbl (Finite self.R_gas * T)%dbl ;;
  let b0 := (Finite self.b0_0 * dexp e)%dbl in
  e <- pydiv (- Finite self.dU_d0)%dbl (Finite self.R_gas * T)%dbl ;;
  let d0 := (Finite self.d0_0 * dexp e)%dbl in
  e <- pydiv (- Finite self.dU_b1)%dbl (Finite self.R_gas * T)%dbl ;;
  let b1 := (Finite self.b0_1 * dexp e)%dbl in
  let denom1 := (Finite 1 + b0 * c0 + b1 * c1)%dbl in
  let denom2 := (Finite 1 + d0 * c0)%dbl in
  let q0 := (ddiv (Finite self.q_sb0 * b0 * c0) denom1
             + ddiv (Finite self.q_sd0 * d0 * c0) denom2)%dbl in
  let q1 := ddiv (Finite self.q_sb1 * b1 * c1)%dbl denom1 in
  Ok (q0, q1).

(** The intermediate results of the isotherm over the reals, in the order
    the code computes them; the isotherm over the doubles follows the one
    over the reals as long as none of them overflows. *)
Definition isotherm_intermediates (c_total y_co2 T : R) : list R :=
  let c0 := c_total * y_co2 in
  let c1 := c_total * (1 - y_co2) in
  let RT := self.R_gas * T in
  let b0 := self.b0_0 * exp (- self.dU_b0 / RT) in
  let d0 := self.d0_0 * exp (- self.dU_d0 / RT) in
  let b1 := self.b0_1 * exp (- self.dU_b1 / RT) in
  let denom1 := 1 + b0 * c0 + b1 * c1 in
  let denom2 := 1 + d0 * c0 in
  [ c0; 1 - y_co2; c1; RT;
    - self.dU_b0 / RT; exp (- self.dU_b0 / RT); b0;
    - self.dU_d0 / RT; exp (- self.dU_d0 / RT); d0;
    - self.dU_b1 / RT; exp (- self.dU_b1 / RT); b1;
    b0 * c0; 1 + b0 * c0; b1 * c1; denom1; d0 * c0; denom2;
    self.q_sb0 * b0; self.q_sb0 * b0 * c0; self.q_sb0 * b0 * c0 / denom1;
    self.q_sd0 * d0; self.q_sd0 * d0 * c0; self.q_sd0 * d0 * c0 / denom2;
    self.q_sb0 * b0 * c0 / denom1 + self.q_sd0 * d0 * c0 / denom2;
    self.q_sb1 * b1; self.q_sb1 * b1 * c1; self.q_sb1 * b1 * c1 / denom1 ].

(** A condition on the inputs under which nothing overflows: [R_gas * T]
    and seven times [(1 + exp (-dU_b0 / (R_gas T))) (1 + c_total)], which
    bounds every intermediate result, are below the overflow threshold. *)
Definition no_overflow (c_total T : R) : Prop :=
  self.R_gas * T < DBL_OVERFLOW
  /\ 7 * (1 + exp (- self.dU_b0 / (self.R_gas * T))) * (1 + c_total)
     < DBL_OVERFLOW.


(** ** Properties of the isotherm *)

Lemma arrhenius_pos pre dU T : 0 < pre -> 0 < arrhenius pre dU T.
Proof.
  intros Hpre. unfold arrhenius.
  apply Rmult_lt_0_compat; [assumption | apply exp_pos].
Qed.

Lemma b0_of_pos T : 0 < b0_of T.
Proof. apply arrhenius_pos; lra. Qed.

Lemma d0_of_pos T : 0 < d0_of T.
Proof. apply arrhenius_pos; lra. Qed.

Lemma b1_of_pos T : 0 < b1_of T.
Proof. apply arrhenius_pos; lra. Qed.

Lemma denom1_of_ge_1 c0 c1 T : 0 <= c0 -> 0 <= c1 -> 1 <= denom1_of c0 c1 T.
Proof.
  intros H0 H1. unfold denom1_of.
  pose proof (b0_of_pos T) as Hb0. pose proof (b1_of_pos T) as Hb1.
  assert (0 <= b0_of T * c0) by (apply Rmult_le_pos; lra).
  assert (0 <= b1_of T * c1) by (apply Rmult_le_pos; lra).
  lra.
Qed.

Lemma denom2_of_ge_1 c0 T : 0 <= c0 -> 1 <= denom2_of c0 T.
Proof.
  intros H0. unfold denom2_of.
  pose proof (d0_of_pos T) as Hd0.
  assert (0 <= d0_of T * c0) by (apply Rmult_le_pos; lra).
  lra.
Qed.

(** [get_isotherm] is the quotient of the Langmuir numerators by the two
    denominators. *)
Lemma get_isotherm_unfold c_total y T :
  get_isotherm c_total y T =
  (self.q_sb0 * b0_of T * (c_total * y)
     / denom1_of (c_total * y) (c_total * (1 - y)) T
   + self.q_sd0 * d0_of T * (c_total * y) / denom2_of (c_total * y) T,
   self.q_sb1 * b1_of T * (c_total * (1 - y))
     / denom1_of (c_total * y) (c_total * (1 - y)) T).
Proof. reflexivity. Qed.

Lemma get_isotherm_numeric_unfold P y T :
  get_isotherm_numeric P y T =
  let c_total := P / (self.R_gas * T) in
  (self.q_sb0 * b0_of T * (c_total * y)
     / denom1_of (c_total * y) (c_total * (1 - y)) T
   + self.q_sd0 * d0_of T * (c_total * y) / denom2_of (c_total * y) T,
   self.q_sb1 * b1_of T * (c_total * (1 - y))
     / denom1_of (c_total * y) (c_total * (1 - y)) T).
Proof. reflexivity. Qed.



(** C3: on its domain (total concentration at least 0, mole fraction in
    [0,1], temperature above 0) the isotherm returns exactly the dual-site
    Langmuir loadings of the partial concentrations [c0 = c_total * y] and
    [c1 = c_total * (1 - y)], with Arrhenius affinities and the repository's
    parameter values; no quotient of the formula has a zero divisor there. *)
Theorem get_isotherm_dual_site_langmuir (c_total y T : R) :
  0 <= c_total -> 0 <= y <= 1 -> 0 < T ->
  get_isotherm c_total y T
  = (langmuir_q0 (c_total * y) (c_total * (1 - y)) T,
     langmuir_q1 (c_total * y) (c_total * (1 - y)) T)
  /\ 8.314 * T <> 0
  /\ 1 + b0_of T * (c_total * y) + b1_of T * (c_total * (1 - y)) <> 0
  /\ 1 + d0_of T * (c_total * y) <> 0.
Proof.
  intros Hc Hy HT.
  assert (H0 : 0 <= c_total * y) by (apply Rmult_le_pos; lra).
  assert (H1 : 0 <= c_total * (1 - y)) by (apply Rmult_le_pos; lra).
  pose proof (denom1_of_ge_1 _ _ T H0 H1) as Hd1.
  pose proof (denom2_of_ge_1 _ T H0) as Hd2.
  unfold denom1_of in Hd1. unfold denom2_of in Hd2.
  repeat split; try lra.
Qed.

Lemma get_isotherm_dual_site_langmuir_witness :
  get_isotherm 40 0.15 298.15
  = (langmuir_q0 (40 * 0.15) (40 * (1 - 0.15)) 298.15,
     langmuir_q1 (40 * 0.15) (40 * (1 - 0.15)) 298.15)
  /\ 8.314 * 298.15 <> 0
  /\ 1 + b0_of 298.15 * (40 * 0.15) + b1_of 298.15 * (40 * (1 - 0.15)) <> 0
  /\ 1 + d0_of 298.15 * (40 * 0.15) <> 0.
Proof.
  apply (get_isotherm_dual_site_langmuir 40 0.15 298.15); lra.
Defined.

(** C4: the numeric isotherm at pressure [P] is the symbolic isotherm at the
    total concentration [P / (R_gas * T)]: the two return the same pair of
    loadings for every pressure above 0, mole fraction in [0,1] and
    temperature above 0, where the concentration is a quotient by a
    non-zero number; so they agree on equal [(c_total, y, T)]. *)
Theorem isotherm_numeric_agrees_with_symbolic (P y T : R) :
  0 < P -> 0 <= y <= 1 -> 0 < T ->
  self.R_gas * T <> 0
  /\ get_isotherm_numeric P y T = get_isotherm (P / (self.R_gas * T)) y T
  /\ forall c_total, c_total = P / (self.R_gas * T) ->
       get_isotherm_numeric P y T = get_isotherm c_total y T.
Proof.
  intros HP Hy HT. split; [unfold self.R_gas; lra |].
  split; [reflexivity |].
  intros c_total ->. reflexivity.
Qed.

Lemma isotherm_numeric_agrees_with_symbolic_witness :
  self.R_gas * 298.15 <> 0
  /\ get_isotherm_numeric 1e4 0.15 298.15
     = get_isotherm (1e4 / (self.R_gas * 298.15)) 0.15 298.15
  /\ forall c_total, c_total = 1e4 / (self.R_gas * 298.15) ->
       get_isotherm_numeric 1e4 0.15 298.15 = get_isotherm c_total 0.15 298.15.
Proof.
  apply (isotherm_numeric_agrees_with_symbolic 1e4 0.15 298.15); lra.
Defined.

(** ** The boundary conditions of [build_model] *)

Lemma lt_true (a b : R) : a < b -> lt a b = true.
Proof. intros H. unfold lt. destruct (Rlt_dec a b); [reflexivity | contradiction]. Qed.

Lemma lt_false (a b : R) : ~ a < b -> lt a b = false.
Proof. intros H. unfold lt. destruct (Rlt_dec a b); [contradiction | reflexivity]. Qed.

(** [ca.if_else] selects one arm. *)
Lemma if_else_select (c : bool) (a b : R) :
  if_else c a b = if c then a else b.
Proof. unfold if_else, if_else_zero. destruct c; simpl; ring. Qed.

(** The selection on the thresholds, for every real step-type code. *)
Lemma P_bound_threshold (u : list R) (tau : R) :
  let s := build_model.step_type u in
  (s < 0.5 -> build_model.P_bound u tau = build_model.P_bound_press u tau)
  /\ (0.5 <= s < 1.5 -> build_model.P_bound u tau = build_model.P_high u)
  /\ (1.5 <= s < 2.5 ->
      build_model.P_bound u tau = build_model.P_bound_blow u tau)
  /\ (2.5 <= s -> build_model.P_bound u tau = build_model.P_bound_evac u tau).
Proof.
  intros s. unfold build_model.P_bound. fold s. rewrite !if_else_select.
  split; [| split; [| split]]; intros H.
  - rewrite lt_true by lra. reflexivity.
  - rewrite lt_false, lt_true by lra. reflexivity.
  - rewrite !lt_false, lt_true by lra. reflexivity.
  - rewrite !lt_false by lra. reflexivity.
Qed.

Lemma boundary_velocity_threshold (N : nat) (x u : list R) (tau : R) :
  let s := build_model.step_type u in
  (s < 0.5 ->
   build_model.v0 N x u tau = build_model.v_in N x u tau
   /\ build_model.vN N x u tau = 0)
  /\ (0.5 <= s < 1.5 ->
      build_model.v0 N x u tau = 1
      /\ build_model.vN N x u tau = build_model.v_out N x u tau)
  /\ (1.5 <= s < 2.5 ->
      build_model.v0 N x u tau = 0
      /\ build_model.vN N x u tau = build_model.v_out N x u tau)
  /\ (2.5 <= s ->
      build_model.v0 N x u tau = build_model.v_in N x u tau
      /\ build_model.vN N x u tau = 0).
Proof.
  intros s. unfold build_model.v0, build_model.vN. fold s.
  rewrite !if_else_select.
  split; [| split; [| split]]; intros H; split.
  - rewrite lt_true by lra. reflexivity.
  - rewrite lt_true by lra. lra.
  - rewrite lt_false, lt_true by lra. lra.
  - rewrite lt_false, lt_true by lra. reflexivity.
  - rewrite !lt_false, lt_true by lra. lra.
  - rewrite !lt_false, lt_true by lra. reflexivity.
  - rewrite !lt_false by lra. reflexivity.
  - rewrite !lt_false by lra. lra.
Qed.

(** The selection is by value: the boundary pressure jumps where the code
    crosses a threshold (here at the start of a step, [tau = 0], with the
    pressure bounds of the cycle). *)
Remark P_bound_jump_at_half (s : R) :
  s < 0.5 ->
  build_model.P_bound [s; 20; 0; 1e4; 1e5] 0 = 1e4
  /\ build_model.P_bound [0.5; 20; 0; 1e4; 1e5] 0 = 1e5.
Proof.
  intros Hs. split.
  - destruct (P_bound_threshold [s; 20; 0; 1e4; 1e5] 0) as (H & _).
    rewrite H by exact Hs.
    unfold build_model.P_bound_press, build_model.t_phys, build_model.P_high,
      build_model.P_low. simpl.
    replace (- build_model.lam [s; 20; 0; 1e4; 1e5]
             * (0 * build_model.duration [s; 20; 0; 1e4; 1e5])) with 0 by ring.
    rewrite exp_0. lra.
  - destruct (P_bound_threshold [0.5; 20; 0; 1e4; 1e5] 0) as (_ & H & _).
    rewrite H by (unfold build_model.step_type; simpl; lra).
    reflexivity.
Qed.

(** The branch taken at a step-type code, on both boundary quantities. *)
Lemma branch_of_code (N : nat) (x u : list R) (tau : R) :
  let s := build_model.step_type u in
  (s < 0.5 ->
   build_model.P_bound u tau = build_model.P_bound_press u tau
   /\ build_model.v0 N x u tau = build_model.v_in N x u tau
   /\ build_model.vN N x u tau = 0)
  /\ (0.5 <= s < 1.5 ->
      build_model.P_bound u tau = build_model.P_high u
      /\ build_model.v0 N x u tau = 1
      /\ build_model.vN N x u tau = build_model.v_out N x u tau)
  /\ (1.5 <= s < 2.5 ->
      build_model.P_bound u tau = build_model.P_bound_blow u tau
      /\ build_model.v0 N x u tau = 0
      /\ build_model.vN N x u tau = build_model.v_out N x u tau)
  /\ (2.5 <= s ->
      build_model.P_bound u tau = build_model.P_bound_evac u tau
      /\ build_model.v0 N x u tau = build_model.v_in N x u tau
      /\ build_model.vN N x u tau = 0).
Proof.
  intros s.
  destruct (P_bound_threshold u tau) as (P0 & P1 & P2 & P3).
  destruct (boundary_velocity_threshold N x u tau) as (V0 & V1 & V2 & V3).
  fold s in P0, P1, P2, P3, V0, V1, V2, V3.
  split; [| split; [| split]]; intros H; split; auto.
Qed.

(** C6, as the code has it: the boundary formulas are the arms of
    [ca.if_else] conditionals on the step-type code, read as a real number
    and compared with the thresholds 0.5, 1.5 and 2.5.  The conditionals
    select by value and blend nothing: a code below 0.5 takes the
    pressurisation pressure with [(v0, vN) = (v_in, 0)], a code from 0.5 to
    below 1.5 the constant [P_high] with [(1.0, v_out)], a code from 1.5 to
    below 2.5 the blowdown pressure with [(0, v_out)], a code from 2.5 on
    the evacuation pressure with [(v_in, 0)]; so each of the codes 0, 1, 2
    and 3 takes one branch, its own, and across the threshold 0.5 the
    boundary pressure jumps by [(P_high - P_low) exp (- lam t)]; for every
    mesh, state, duration, pressure bounds and time. *)
Theorem step_type_selects_one_branch
  (N : nat) (x : list R) (duration dummy P_L P_H tau : R) :
  let u := fun type_id : R => [type_id; duration; dummy; P_L; P_H] in
  let branch := fun (s : R) (P_b v_0 v_N : R) =>
    build_model.P_bound (u s) tau = P_b
    /\ build_model.v0 N x (u s) tau = v_0
    /\ build_model.vN N x (u s) tau = v_N in
  (forall s, s < 0.5 ->
     branch s (build_model.P_bound_press (u s) tau)
       (build_model.v_in N x (u s) tau) 0)
  /\ (forall s, 0.5 <= s < 1.5 ->
        branch s P_H 1.0 (build_model.v_out N x (u s) tau))
  /\ (forall s, 1.5 <= s < 2.5 ->
        branch s (build_model.P_bound_blow (u s) tau)
          0 (build_model.v_out N x (u s) tau))
  /\ (forall s, 2.5 <= s ->
        branch s (build_model.P_bound_evac (u s) tau)
          (build_model.v_in N x (u s) tau) 0)
  /\ branch 0 (build_model.P_bound_press (u 0) tau)
       (build_model.v_in N x (u 0) tau) 0
  /\ branch 1 P_H 1.0 (build_model.v_out N x (u 1) tau)
  /\ branch 2 (build_model.P_bound_blow (u 2) tau)
       0 (build_model.v_out N x (u 2) tau)
  /\ branch 3 (build_model.P_bound_evac (u 3) tau)
       (build_model.v_in N x (u 3) tau) 0
  /\ (forall s s', s < 0.5 -> 0.5 <= s' < 1.5 ->
        build_model.P_bound (u s') tau - build_model.P_bound (u s) tau
        = (P_H - P_L) * exp (- (5.0 / (duration + 1e-3)) * (tau * duration))).
Proof.
  intros u branch.
  assert (H0 : forall s, s < 0.5 ->
            branch s (build_model.P_bound_press (u s) tau)
              (build_model.v_in N x (u s) tau) 0).
  { intros s Hs. destruct (branch_of_code N x (u s) tau) as (H & _).
    apply H. exact Hs. }
  assert (H1 : forall s, 0.5 <= s < 1.5 ->
            branch s P_H 1.0 (build_model.v_out N x (u s) tau)).
  { intros s Hs. destruct (branch_of_code N x (u s) tau) as (_ & H & _).
    destruct (H Hs) as (Ha & Hb & Hc).
    repeat split; [exact Ha | rewrite Hb; lra | exact Hc]. }
  assert (H2 : forall s, 1.5 <= s < 2.5 ->
            branch s (build_model.P_bound_blow (u s) tau)
              0 (build_model.v_out N x (u s) tau)).
  { intros s Hs. destruct (branch_of_code N x (u s) tau) as (_ & _ & H & _).
    apply H. exact Hs. }
  assert (H3 : forall s, 2.5 <= s ->
            branch s (build_model.P_bound_evac (u s) tau)
              (build_model.v_in N x (u s) tau) 0).
  { intros s Hs. destruct (branch_of_code N x (u s) tau) as (_ & _ & _ & H).
    apply H. exact Hs. }
  split; [exact H0 |]. split; [exact H1 |].
  split; [exact H2 |]. split; [exact H3 |].
  split; [apply H0; lra |]. split; [apply H1; lra |].
  split; [apply H2; lra |]. split; [apply H3; lra |].
  intros s s' Hs Hs'.
  rewrite (proj1 (H0 s Hs)), (proj1 (H1 s' Hs')).
  unfold build_model.P_bound_press, build_model.lam, build_model.t_phys,
    build_model.P_high, build_model.P_low, build_model.duration, u.
  cbn [nth]. ring.
Qed.

Lemma step_type_selects_one_branch_witness :
  build_model.P_bound [0.2; 20; 0; 1e4; 1e5] 1
  = build_model.P_bound_press [0.2; 20; 0; 1e4; 1e5] 1
  /\ build_model.P_bound [1.2; 15; 0; 1e4; 1e5] 1 = 1e5
  /\ build_model.P_bound [2.2; 30; 0; 1e4; 1e5] 1
     = build_model.P_bound_blow [2.2; 30; 0; 1e4; 1e5] 1
  /\ build_model.P_bound [3.2; 40; 0; 1e4; 1e5] 1
     = build_model.P_bound_evac [3.2; 40; 0; 1e4; 1e5] 1.
Proof.
  assert (A0 : 0.2 < 0.5) by lra.
  assert (A1 : 0.5 <= 1.2 < 1.5) by lra.
  assert (A2 : 1.5 <= 2.2 < 2.5) by lra.
  assert (A3 : 2.5 <= 3.2) by lra.
  pose proof (step_type_selects_one_branch 1 [0; 0.1; 298.15; 0; 0]
                20 0 1e4 1e5 1) as (H0 & _).
  pose proof (step_type_selects_one_branch 1 [0; 0.1; 298.15; 0; 0]
                15 0 1e4 1e5 1) as (_ & H1 & _).
  pose proof (step_type_selects_one_branch 1 [0; 0.1; 298.15; 0; 0]
                30 0 1e4 1e5 1) as (_ & _ & H2 & _).
  pose proof (step_type_selects_one_branch 1 [0; 0.1; 298.15; 0; 0]
                40 0 1e4 1e5 1) as (_ & _ & _ & H3 & _).
  split; [exact (proj1 (H0 0.2 A0)) |].
  split; [exact (proj1 (H1 1.2 A1)) |].
  split; [exact (proj1 (H2 2.2 A2)) | exact (proj1 (H3 3.2 A3))].
Defined.

(** C6 as the spec words it fails: the boundary pressure is not a smooth
    function of the step-type code.  With the bounds of the cycle, at the
    start of a step, it is 1e4 for every code below 0.5 and 1e5 at 0.5. *)
Lemma P_bound_not_smooth_in_code : ~ smooth_in_code 20 0 1e4 1e5 0.
Proof.
  intros Hsmooth. specialize (Hsmooth 0.5).
  unfold continuity_pt, continue_in, limit1_in, limit_in in Hsmooth.
  destruct (Hsmooth 1e4) as (alp & Halp & Hclose); [lra |].
  simpl in Hclose. unfold R_dist in Hclose.
  assert (Hs : 0.5 - alp / 2 < 0.5) by lra.
  specialize (Hclose (0.5 - alp / 2)).
  destruct (P_bound_jump_at_half (0.5 - alp / 2) Hs) as [Hleft Hat].
  rewrite Hleft, Hat in Hclose.
  assert (Hdist : Rabs (1e4 - 1e5) < 1e4).
  { apply Hclose. split.
    - split; [exact I | lra].
    - rewrite Rabs_left; lra. }
  rewrite Rabs_left in Hdist; lra.
Qed.

(** C7: in the pressurisation step (code 0) with bounds 1e4 and 1e5 and
    duration 20, the boundary pressure at [tau = 1] is
    [P_high - (P_high - P_low) * exp (- lam * t)] with
    [lam = 5 / (duration + 1e-3)] and [t = tau * duration], and its
    relative distance to [P_high] is at most [exp (-5 / (20 + 1e-3) * 1)]. *)
Theorem pressurization_boundary_reaches_P_high :
  let u := [0; 20; 0; 1e4; 1e5] in
  build_model.P_bound u 1
  = 1e5 - (1e5 - 1e4) * exp (- (5 / (20 + 1e-3)) * (1 * 20))
  /\ Rabs (build_model.P_bound u 1 - 1e5) / 1e5
     <= exp (- 5 / (20 + 1e-3) * 1).
Proof.
  intros u.
  assert (E : build_model.P_bound u 1
              = 1e5 - (1e5 - 1e4) * exp (- (5 / (20 + 1e-3)) * (1 * 20))).
  { destruct (P_bound_threshold u 1) as (H & _).
    rewrite H by (unfold build_model.step_type, u; simpl; lra).
    unfold build_model.P_bound_press, build_model.lam, build_model.t_phys,
      build_model.P_high, build_model.P_low, build_model.duration, u.
    simpl. replace 5.0 with 5 by lra. reflexivity. }
  split; [exact E |].
  rewrite E.
  set (a := 5 / (20 + 1e-3)).
  assert (Ha : 0 < a) by (unfold a; apply Rdiv_lt_0_compat; lra).
  set (E20 := exp (- a * (1 * 20))).
  assert (HE : 0 < E20) by apply exp_pos.
  assert (Hmono : E20 <= exp (- 5 / (20 + 1e-3) * 1)).
  { unfold E20.
    replace (- 5 / (20 + 1e-3) * 1) with (- a) by (unfold a; field; lra).
    destruct (Rle_lt_or_eq_dec (- a * (1 * 20)) (- a)) as [Hlt | Heq];
      [lra | left; apply exp_increasing; exact Hlt | rewrite Heq; right; reflexivity]. }
  replace (1e5 - (1e5 - 1e4) * E20 - 1e5) with (- (9e4 * E20)) by lra.
  rewrite Rabs_Ropp, Rabs_pos_eq by lra.
  replace (9e4 * E20 / 1e5) with (0.9 * E20) by lra.
  lra.
Qed.

(** C10: at the last control volume both arms of the right-face blend take
    the cell's own value, so the right-face mole fraction and temperature
    are those of the last cell, for every mesh, state, step parameters and
    time (hence every face velocity and blend weight). *)
Theorem outlet_face_carries_last_cell (N : nat) (x u : list R) (tau : R) :
  build_model.yR N x u tau (N - 1) = (build_model.y N x)@(N - 1)
  /\ build_model.TR N x u tau (N - 1) = (build_model.T N x)@(N - 1).
Proof.
  unfold build_model.yR, build_model.TR.
  rewrite Nat.eqb_refl. split; ring.
Qed.

(** ** Vectors: slices and slice assignment *)

Lemma fill_from_length (v : list R) (i a b : nat) (e : R) :
  length (fill_from i a b e v) = length v.
Proof.
  revert i. induction v as [| h t IH]; intros i; simpl;
    [reflexivity | now rewrite IH].
Qed.

Lemma fill_from_nth (v : list R) (i a b : nat) (e : R) (k : nat) :
  (k < length v)%nat ->
  (fill_from i a b e v)@k
  = if andb (a <=? i + k)%nat (i + k <? b)%nat then e else v@k.
Proof.
  revert i k. induction v as [| h t IH]; intros i k Hk; simpl in Hk.
  - lia.
  - destruct k as [| k]; simpl.
    + rewrite Nat.add_0_r. reflexivity.
    + rewrite IH by lia.
      replace (S i + k)%nat with (i + S k)%nat by lia. reflexivity.
Qed.

Lemma slice_fill_length (a b : nat) (e : R) (v : list R) :
  length (slice_fill a b e v) = length v.
Proof. apply fill_from_length. Qed.

Lemma slice_fill_nth (a b : nat) (e : R) (v : list R) (k : nat) :
  (k < length v)%nat ->
  (slice_fill a b e v)@k
  = if andb (a <=? k)%nat (k <? b)%nat then e else v@k.
Proof. intros Hk. unfold slice_fill. now rewrite fill_from_nth. Qed.

Lemma slice_length (a b : nat) (v : list R) :
  (b <= length v)%nat -> length (slice a b v) = (b - a)%nat.
Proof.
  intros Hb. unfold slice. rewrite length_firstn, length_skipn. lia.
Qed.

Lemma slice_nth (a b : nat) (v : list R) (k : nat) :
  (k < b - a)%nat -> (slice a b v)@k = v@(a + k).
Proof.
  intros Hk. unfold slice.
  rewrite nth_firstn.
  destruct (Nat.ltb_spec k (b - a)); [| lia].
  apply nth_skipn.
Qed.

Lemma repeat_nth (e : R) (n k : nat) : (k < n)%nat -> (repeat e n)@k = e.
Proof.
  revert k. induction n as [| n IH]; intros k Hk; [lia |].
  destruct k as [| k]; simpl; [reflexivity | apply IH; lia].
Qed.

(** A slice whose elements all are [e] is the constant block. *)
Lemma slice_constant (a b : nat) (v : list R) (e : R) :
  (b <= length v)%nat ->
  (forall k, (a <= k < b)%nat -> v@k = e) ->
  slice a b v = repeat e (b - a).
Proof.
  intros Hb Hall.
  apply (nth_ext _ _ 0 0).
  - rewrite slice_length, repeat_length by assumption. reflexivity.
  - intros k Hk. rewrite slice_length in Hk by assumption.
    rewrite slice_nth, repeat_nth by assumption.
    apply Hall. lia.
Qed.

(** ** The initial state of [simulate_css] *)

Lemma initial_state_length (self : VPSA_Robust.t) :
  length (VPSA_Robust.initial_state self) = (5 * VPSA_Robust.N self)%nat.
Proof.
  unfold VPSA_Robust.initial_state.
  destruct (get_isotherm_numeric 1e4 0.0 298.15) as [q0_eq q1_eq].
  rewrite !slice_fill_length. apply repeat_length.
Qed.

Lemma initial_state_nth (self : VPSA_Robust.t) (j : nat) :
  let n := VPSA_Robust.N self in
  (j < 5 * n)%nat ->
  (VPSA_Robust.initial_state self)@j
  = if (j <? n)%nat then 0.0
    else if (j <? 2 * n)%nat then 1e4 / self.P_scale
    else if (j <? 3 * n)%nat then 298.15
    else if (j <? 4 * n)%nat then fst (get_isotherm_numeric 1e4 0.0 298.15)
    else snd (get_isotherm_numeric 1e4 0.0 298.15).
Proof.
  intros n Hj. unfold VPSA_Robust.initial_state. fold n.
  destruct (get_isotherm_numeric 1e4 0.0 298.15) as [q0_eq q1_eq].
  cbn [fst snd].
  rewrite !slice_fill_nth
    by (rewrite ?slice_fill_length, repeat_length; exact Hj).
  rewrite repeat_nth by exact Hj.
  destruct (Nat.ltb_spec j n), (Nat.ltb_spec j (2 * n)),
    (Nat.ltb_spec j (3 * n)), (Nat.ltb_spec j (4 * n)),
    (Nat.ltb_spec j (5 * n)),
    (Nat.leb_spec (0 * n) j), (Nat.leb_spec (1 * n) j),
    (Nat.leb_spec (2 * n) j), (Nat.leb_spec (3 * n) j),
    (Nat.leb_spec (4 * n) j), (Nat.ltb_spec j (1 * n));
    simpl; try reflexivity; try lia; try lra.
Qed.

(** The carbon-dioxide loading of the start-up state is the isotherm value
    at mole fraction 0, which is 0; the nitrogen loading is positive. *)
Remark initial_loadings_values :
  fst (get_isotherm_numeric 1e4 0 298.15) = 0
  /\ 0 < snd (get_isotherm_numeric 1e4 0 298.15).
Proof.
  rewrite get_isotherm_numeric_unfold. cbv zeta. cbn [fst snd].
  set (c := 1e4 / (self.R_gas * 298.15)).
  assert (Hc : 0 < c).
  { unfold c, self.R_gas. apply Rdiv_lt_0_compat; lra. }
  replace (c * 0) with 0 by ring. replace (c * (1 - 0)) with c by ring.
  split.
  - unfold Rdiv. ring.
  - pose proof (b1_of_pos 298.15) as Hb1.
    assert (Hd : 1 <= denom1_of 0 c 298.15)
      by (apply denom1_of_ge_1; lra).
    apply Rdiv_lt_0_compat; [| lra].
    apply Rmult_lt_0_compat; [| exact Hc].
    apply Rmult_lt_0_compat; [unfold self.q_sb1; lra | exact Hb1].
Qed.

(** C5: the state built at start-up has 5N entries, and its five blocks
    are constant over the N control volumes: mole fraction 0, scaled
    pressure 1e4 / 1e5 = 0.1, temperature 298.15, and the two loadings of
    the numeric isotherm at (P = 1e4, y = 0, T = 298.15); this state is the
    one the cycle loop starts from. *)
Theorem initial_state_blocks (self : VPSA_Robust.t) :
  let n := VPSA_Robust.N self in
  let x := VPSA_Robust.initial_state self in
  length x = (5 * n)%nat
  /\ build_model.y n x = repeat 0 n
  /\ build_model.P_bar n x = repeat (1e4 / 1e5) n
  /\ 1e4 / 1e5 = 0.1
  /\ build_model.T n x = repeat 298.15 n
  /\ build_model.q0 n x = repeat (fst (get_isotherm_numeric 1e4 0 298.15)) n
  /\ build_model.q1 n x = repeat (snd (get_isotherm_numeric 1e4 0 298.15)) n
  /\ forall cycles make_plot,
       VPSA_Robust.simulate_css self cycles make_plot
       = VPSA_Robust.css_loop self cycles x [].
Proof.
  intros n x.
  pose proof (initial_state_length self) as Hlen. fold n x in Hlen.
  assert (Hz : 0.0 = 0) by lra.
  assert (Hp : self.P_scale = 1e5) by (unfold self.P_scale; lra).
  assert (Hnth : forall j, (j < 5 * n)%nat ->
            x@j = if (j <? n)%nat then 0
                  else if (j <? 2 * n)%nat then 1e4 / 1e5
                  else if (j <? 3 * n)%nat then 298.15
                  else if (j <? 4 * n)%nat
                       then fst (get_isotherm_numeric 1e4 0 298.15)
                       else snd (get_isotherm_numeric 1e4 0 298.15)).
  { intros j Hj. unfold x. rewrite (initial_state_nth self j Hj).
    fold n. rewrite Hz, Hp. reflexivity. }
  assert (Hblock : forall a b e,
            (b <= 5 * n)%nat -> (b - a = n)%nat ->
            (forall k, (a <= k < b)%nat -> x@k = e) ->
            slice a b x = repeat e n).
  { intros a b e Hb Hn Hall. rewrite <- Hn.
    apply slice_constant; [lia | exact Hall]. }
  split; [exact Hlen |].
  split.
  { apply Hblock; try lia. intros k Hk. rewrite Hnth by lia.
    destruct (Nat.ltb_spec k n); [reflexivity | lia]. }
  split.
  { apply Hblock; try lia. intros k Hk. rewrite Hnth by lia.
    destruct (Nat.ltb_spec k n); [lia |].
    destruct (Nat.ltb_spec k (2 * n)); [reflexivity | lia]. }
  split; [lra |].
  split.
  { apply Hblock; try lia. intros k Hk. rewrite Hnth by lia.
    destruct (Nat.ltb_spec k n); [lia |].
    destruct (Nat.ltb_spec k (2 * n)); [lia |].
    destruct (Nat.ltb_spec k (3 * n)); [reflexivity | lia]. }
  split.
  { apply Hblock; try lia. intros k Hk. rewrite Hnth by lia.
    destruct (Nat.ltb_spec k n); [lia |].
    destruct (Nat.ltb_spec k (2 * n)); [lia |].
    destruct (Nat.ltb_spec k (3 * n)); [lia |].
    destruct (Nat.ltb_spec k (4 * n)); [reflexivity | lia]. }
  split.
  { apply Hblock; try lia. intros k Hk. rewrite Hnth by lia.
    destruct (Nat.ltb_spec k n); [lia |].
    destruct (Nat.ltb_spec k (2 * n)); [lia |].
    destruct (Nat.ltb_spec k (3 * n)); [lia |].
    destruct (Nat.ltb_spec k (4 * n)); [lia | reflexivity]. }
  intros cycles make_plot. reflexivity.
Qed.

(** ** The cycle and the cyclic-steady-state loop *)

Lemma bind_Ok_r {X : Type} (m : result X) : (a <- m ;; Ok a) = m.
Proof. destruct m; reflexivity. Qed.

Lemma simulate_step_integrator (self : VPSA_Robust.t) (x0 : list R)
  (type_id duration P_L P_H : R) :
  VPSA_Robust.simulate_step self x0 type_id duration P_L P_H
  = VPSA_Robust.integrator self x0 [type_id; duration; 0; P_L; P_H].
Proof. unfold VPSA_Robust.simulate_step. apply bind_Ok_r. Qed.

Lemma run_cycle_apply_steps (self : VPSA_Robust.t) (x : list R) :
  VPSA_Robust.run_cycle self x = apply_steps self the_cycle x.
Proof.
  unfold VPSA_Robust.run_cycle, VPSA_Robust.simulate_step, apply_steps,
    the_cycle, advance.
  simpl.
  replace 20.0 with 20 by lra. replace 15.0 with 15 by lra.
  replace 30.0 with 30 by lra. replace 40.0 with 40 by lra.
  destruct (VPSA_Robust.integrator self x [0; 20; 0; 1e4; 1e5])
    as [x1 | e]; simpl; [| reflexivity].
  destruct (VPSA_Robust.integrator self x1 [1; 15; 0; 1e4; 1e5])
    as [x2 | e]; simpl; [| reflexivity].
  destruct (VPSA_Robust.integrator self x2 [2; 30; 0; 1e4; 1e5])
    as [x3 | e]; simpl; [| reflexivity].
  destruct (VPSA_Robust.integrator self x3 [3; 40; 0; 1e4; 1e5])
    as [x4 | e]; reflexivity.
Qed.

Lemma css_loop_raise (self : VPSA_Robust.t) (k : nat) (x errors : list R)
  (e : exn) :
  VPSA_Robust.run_cycle self x = Raise e ->
  VPSA_Robust.css_loop self (S k) x errors = Raise e.
Proof. intros H. simpl. rewrite H. reflexivity. Qed.

Lemma css_loop_stop (self : VPSA_Robust.t) (k : nat) (x x' errors : list R) :
  VPSA_Robust.run_cycle self x = Ok x' ->
  rel_err x' x < 1e-3 ->
  VPSA_Robust.css_loop self (S k) x errors
  = Ok (errors ++ [rel_err x' x], x').
Proof.
  intros H Hlt. simpl. rewrite H. simpl.
  fold (rel_err x' x). rewrite lt_true by exact Hlt. reflexivity.
Qed.

Lemma css_loop_continue (self : VPSA_Robust.t) (k : nat)
  (x x' errors : list R) :
  VPSA_Robust.run_cycle self x = Ok x' ->
  ~ rel_err x' x < 1e-3 ->
  VPSA_Robust.css_loop self (S k) x errors
  = VPSA_Robust.css_loop self k x' (errors ++ [rel_err x' x]).
Proof.
  intros H Hge. simpl. rewrite H. simpl.
  fold (rel_err x' x). rewrite lt_false by exact Hge. reflexivity.
Qed.

(** C1: one cycle applies the four process steps of the cycle, in order:
    type 0 for 20, type 1 for 15, type 2 for 30, type 3 for 40, each with
    the bounds 1e4 and 1e5, each by one call of the integrator on the state
    the step before returned; and every pass of the loop of [simulate_css]
    starts with this cycle. *)
Theorem run_cycle_four_steps (self : VPSA_Robust.t) (x : list R) :
  let step := fun type_id duration x =>
    VPSA_Robust.integrator self x [type_id; duration; 0; 1e4; 1e5] in
  length the_cycle = 4%nat
  /\ VPSA_Robust.run_cycle self x = apply_steps self the_cycle x
  /\ VPSA_Robust.run_cycle self x
     = (x1 <- step 0 20 x ;; x2 <- step 1 15 x1 ;;
        x3 <- step 2 30 x2 ;; step 3 40 x3)
  /\ forall k errors,
       VPSA_Robust.css_loop self (S k) x errors
       = (x' <- apply_steps self the_cycle x ;;
          if lt (rel_err x' x) 1e-3 then Ok (errors ++ [rel_err x' x], x')
          else VPSA_Robust.css_loop self k x' (errors ++ [rel_err x' x])).
Proof.
  intros step.
  split; [reflexivity |].
  split; [apply run_cycle_apply_steps |].
  split.
  - rewrite run_cycle_apply_steps.
    unfold apply_steps, the_cycle, advance, step. simpl.
    destruct (VPSA_Robust.integrator self x [0; 20; 0; 1e4; 1e5])
      as [x1 | e]; simpl; [| reflexivity].
    destruct (VPSA_Robust.integrator self x1 [1; 15; 0; 1e4; 1e5])
      as [x2 | e]; simpl; [| reflexivity].
    destruct (VPSA_Robust.integrator self x2 [2; 30; 0; 1e4; 1e5])
      as [x3 | e]; simpl; reflexivity.
  - intros k errors. rewrite <- run_cycle_apply_steps. reflexivity.
Qed.

Lemma norm_sum_of_squares (v : list R) : norm v = sqrt (sum_of_squares v).
Proof.
  unfold norm, sum_of_squares. f_equal.
  induction v as [| h t IH]; simpl; [reflexivity | now rewrite IH].
Qed.

Lemma vsub_difference (a b : list R) : vsub a b = difference a b.
Proof.
  unfold vsub, difference. revert b.
  induction a as [| h t IH]; intros [| h' t']; simpl;
    try reflexivity. now rewrite IH.
Qed.

(** The residual the loop computes is the residual of the spec. *)
Lemma rel_err_residual (x x_start : list R) :
  rel_err x x_start = residual x x_start.
Proof.
  unfold rel_err, residual.
  rewrite !norm_sum_of_squares, vsub_difference. reflexivity.
Qed.

(** The loop from the state after [j] cycles, none of which met the
    tolerance, with [remaining] cycles left of a budget of [cycles]. *)
Lemma css_loop_along (self : VPSA_Robust.t) (xs : nat -> list R)
  (cycles : nat) :
  cycles_succeed_along self xs cycles ->
  forall remaining j errors,
    (1 <= remaining)%nat ->
    (j + remaining = cycles)%nat ->
    (forall i, (1 <= i <= j)%nat -> ~ residual_at xs i < 1e-3) ->
    exists n,
      (1 <= n <= remaining)%nat
      /\ VPSA_Robust.css_loop self remaining (xs j) errors
         = Ok (errors ++ map (residual_at xs) (seq (S j) n), xs (j + n)%nat)
      /\ (forall k, (j + 1 <= k < j + n)%nat -> ~ residual_at xs k < 1e-3)
      /\ (residual_at xs (j + n)%nat < 1e-3
          \/ (n = remaining /\ ~ residual_at xs (j + n)%nat < 1e-3)).
Proof.
  intros Hrun. induction remaining as [| r IH];
    intros j errors Hr Hsum Hbefore; [lia |].
  assert (Hstep : VPSA_Robust.run_cycle self (xs j) = Ok (xs (S j))).
  { apply Hrun; [lia | exact Hbefore]. }
  assert (Herr : rel_err (xs (S j)) (xs j) = residual_at xs (S j)).
  { unfold residual_at. rewrite rel_err_residual.
    replace (S j - 1)%nat with j by lia. reflexivity. }
  destruct (Rlt_dec (residual_at xs (S j)) 1e-3) as [Hlt | Hge].
  - exists 1%nat. split; [lia |]. split.
    + rewrite (css_loop_stop _ _ _ _ _ Hstep) by (rewrite Herr; exact Hlt).
      rewrite Herr, Nat.add_1_r. reflexivity.
    + split; [intros k Hk; lia |].
      left. rewrite Nat.add_1_r. exact Hlt.
  - rewrite (css_loop_continue _ _ _ _ _ Hstep) by (rewrite Herr; exact Hge).
    rewrite Herr.
    destruct r as [| r].
    + exists 1%nat. split; [lia |]. split.
      * cbn [VPSA_Robust.css_loop seq map]. rewrite Nat.add_1_r. reflexivity.
      * split; [intros k Hk; lia |].
        right. rewrite Nat.add_1_r. split; [reflexivity | exact Hge].
    + destruct (IH (S j) (errors ++ [residual_at xs (S j)])) as
        (n & Hn & Heq & Hnot & Hend); [lia | lia | |].
      { intros i Hi. destruct (Nat.eq_dec i (S j)) as [-> | Hne];
          [exact Hge | apply Hbefore; lia]. }
      exists (S n). split; [lia |]. split.
      * rewrite Heq. rewrite <- app_assoc.
        replace (S j + n)%nat with (j + S n)%nat by lia. reflexivity.
      * split.
        -- intros k Hk. destruct (Nat.eq_dec k (S j)) as [-> | Hne];
             [exact Hge | apply Hnot; lia].
        -- replace (j + S n)%nat with (S j + n)%nat by lia.
           destruct Hend as [Hend | [Hend1 Hend2]];
             [left; exact Hend | right; split; [lia | exact Hend2]].
Qed.

(** C2: for every initial state [xs 0] and every budget of at least one
    cycle, when the cycles the loop gets to succeed (cycle [k + 1] takes
    [xs k] to [xs (k + 1)]; nothing is assumed of the integrator on other
    states), the loop runs [n] cycles with [1 <= n <= cycles]: it returns
    one residual per cycle, the k-th being
    [||x_k - x_(k-1)|| / (||x_(k-1)|| + 1e-8)] with the Euclidean norm, the
    last being the final residual, together with the state after [n]
    cycles; no cycle before the n-th met the tolerance 1e-3, and the n-th
    met it (success) or [n] is the whole budget (no convergence). *)
Theorem css_loop_terminates (self : VPSA_Robust.t) (xs : nat -> list R)
  (cycles : nat) :
  (1 <= cycles)%nat ->
  cycles_succeed_along self xs cycles ->
  exists n errors,
    (1 <= n <= cycles)%nat
    /\ VPSA_Robust.css_loop self cycles (xs 0%nat) [] = Ok (errors, xs n)
    /\ errors = map (residual_at xs) (seq 1 n)
    /\ length errors = n
    /\ last errors 0 = residual_at xs n
    /\ (forall k, (1 <= k <= n)%nat ->
          errors@(k - 1)
          = sqrt (sum_of_squares (difference (xs k) (xs (k - 1)%nat)))
            / (sqrt (sum_of_squares (xs (k - 1)%nat)) + 1e-8))
    /\ (forall k, (1 <= k < n)%nat -> ~ residual_at xs k < 1e-3)
    /\ (residual_at xs n < 1e-3
        \/ (n = cycles /\ ~ residual_at xs n < 1e-3)).
Proof.
  intros Hc Hrun.
  destruct (css_loop_along self xs cycles Hrun cycles 0 [] Hc)
    as (n & Hn & Heq & Hnot & Hend); [lia | intros i Hi; lia |].
  cbn [app plus] in Heq, Hnot, Hend.
  exists n, (map (residual_at xs) (seq 1 n)).
  split; [exact Hn |]. split; [exact Heq |]. split; [reflexivity |].
  split; [rewrite length_map, length_seq; reflexivity |].
  split.
  { destruct n as [| n]; [lia |].
    rewrite seq_S, map_app. cbn [map]. rewrite last_last. reflexivity. }
  split.
  { intros k Hk.
    rewrite (nth_indep _ 0 (residual_at xs 0))
      by (rewrite length_map, length_seq; lia).
    rewrite map_nth, seq_nth by lia.
    replace (1 + (k - 1))%nat with k by lia. reflexivity. }
  split; [intros k Hk; apply Hnot; lia | exact Hend].
Qed.

(** The first residual of the halving example: the state [3; 4; 0; 0; 0]
    of norm 5 moves by 15/16 of itself in one cycle. *)
Lemma halving_first_residual :
  sqrt (sum_of_squares
          (difference (halve4 [3; 4; 0; 0; 0]) [3; 4; 0; 0; 0]))
  / (sqrt (sum_of_squares [3; 4; 0; 0; 0]) + 1e-8)
  = 75 / 16 / (5 + 1e-8).
Proof.
  assert (H1 : sum_of_squares
                 (difference (halve4 [3; 4; 0; 0; 0]) [3; 4; 0; 0; 0])
               = (75 / 16) * (75 / 16)).
  { unfold sum_of_squares, difference, halve4. simpl. field. }
  assert (H2 : sum_of_squares [3; 4; 0; 0; 0] = 5 * 5).
  { unfold sum_of_squares. simpl. ring. }
  rewrite H1, H2, !sqrt_square by lra. reflexivity.
Qed.

Lemma css_loop_terminates_witness :
  exists n errors,
    (1 <= n <= 3)%nat
    /\ VPSA_Robust.css_loop picky_sim 3 [3; 4; 0; 0; 0] []
       = Ok (errors, state_at halve4 [3; 4; 0; 0; 0] n)
    /\ length errors = n
    /\ errors@0 = 75 / 16 / (5 + 1e-8)
    /\ VPSA_Robust.run_cycle picky_sim [] = Raise RuntimeError.
Proof.
  destruct (css_loop_terminates picky_sim
              (state_at halve4 [3; 4; 0; 0; 0]) 3)
    as (n & errors & Hn & Heq & _ & Hlen & _ & Hres & _).
  - lia.
  - intros k Hk _.
    destruct k as [| [| [| k]]]; [reflexivity | reflexivity | reflexivity | lia].
  - exists n, errors.
    split; [exact Hn |]. split; [exact Heq |]. split; [exact Hlen |].
    split; [| reflexivity].
    assert (H1 : (1 <= 1 <= n)%nat) by lia.
    exact (eq_trans (Hres 1%nat H1) halving_first_residual).
Defined.

(** ** Failures: from the integrator to the sweep *)

Lemma apply_steps_raise (self : VPSA_Robust.t) (steps : list process_step)
  (e : exn) :
  fold_left (advance self) steps (Raise e) = Raise e.
Proof. induction steps as [| s t IH]; simpl; [reflexivity | exact IH]. Qed.

Lemma step_fails_run_cycle (self : VPSA_Robust.t) (x : list R) (e : exn) :
  step_fails self x e -> VPSA_Robust.run_cycle self x = Raise e.
Proof.
  intros (before & s & after & xj & Hcycle & Hbefore & Hs).
  rewrite run_cycle_apply_steps. unfold apply_steps in *.
  rewrite Hcycle, fold_left_app, Hbefore. cbn [fold_left].
  rewrite Hs. apply apply_steps_raise.
Qed.

Lemma run_fails_css_loop (self : VPSA_Robust.t) (k : nat) (x : list R)
  (e : exn) :
  run_fails self k x e ->
  forall errors, VPSA_Robust.css_loop self k x errors = Raise e.
Proof.
  induction 1 as [k x e Hstep | k x x' e Hok Hge _ IH]; intros errors.
  - apply css_loop_raise, step_fails_run_cycle, Hstep.
  - rewrite (css_loop_continue _ _ _ _ _ Hok Hge). apply IH.
Qed.

Lemma run_one_raise (ca_integrator : ca_integrator_t) (n_val : nat)
  (sim : VPSA_Robust.t) (e : exn) :
  VPSA_Robust.init ca_integrator n_val = Ok sim ->
  VPSA_Robust.simulate_css sim 1000 false = Raise e ->
  main.run_one ca_integrator n_val = Raise e.
Proof. intros Hinit Hrun. unfold main.run_one. rewrite Hinit. simpl. rewrite Hrun. reflexivity. Qed.

Lemma run_one_row (ca_integrator : ca_integrator_t) (n_val : nat)
  (en : main.entry) (r : main.row) :
  main.run_one ca_integrator n_val = Ok (en, r) -> main.row_N r = n_val.
Proof.
  unfold main.run_one.
  destruct (VPSA_Robust.init ca_integrator n_val) as [sim | e]; simpl;
    [| discriminate].
  destruct (VPSA_Robust.simulate_css sim 1000 false) as [[errs fx] | e];
    simpl; [| discriminate].
  destruct (main.last_item errs) as [fe | e]; simpl; [| discriminate].
  intros H. injection H as _ <-. reflexivity.
Qed.

(** The loop of the script ends at the first size whose pass raises. *)
Lemma sweep_raises_at (ca_integrator : ca_integrator_t)
  (before : list nat) (n_val : nat) (after : list nat) (e : exn) :
  Forall (fun m => exists r, main.run_one ca_integrator m = Ok r) before ->
  main.run_one ca_integrator n_val = Raise e ->
  forall results out,
  exists out',
    main.sweep ca_integrator (before ++ n_val :: after) results out
    = (out ++ out', Raise e)
    /\ map main.row_N out' = before.
Proof.
  intros Hbefore Hfail.
  induction Hbefore as [| m rest [[en r] Hm] _ IH]; intros results out.
  - exists []. simpl. rewrite Hfail, app_nil_r. split; reflexivity.
  - destruct (IH (main.dict_set results m en) (out ++ [r]))
      as (out' & Heq & Hrows).
    exists (r :: out'). simpl. rewrite Hm, Heq, <- app_assoc. simpl.
    split; [reflexivity |].
    rewrite Hrows, (run_one_row _ _ _ _ Hm). reflexivity.
Qed.

(** C9, as the code has it: a failed integration step, in any cycle the run
    reaches, makes [simulate_css] raise the integrator's exception, and the
    exception passes through the pass of the sweep and through the sweep:
    the loop of the script has no handler, so it ends with that exception
    at the first mesh size whose run fails; the rows printed are those of
    the sizes before it, and no later size is run. *)
Theorem integration_failure_ends_the_sweep
  (ca_integrator : ca_integrator_t)
  (before : list nat) (n_val : nat) (after : list nat) (e : exn)
  (results : list (nat * main.entry)) (out : list main.row) :
  Forall (fun m => exists r, main.run_one ca_integrator m = Ok r) before ->
  (exists sim,
     VPSA_Robust.init ca_integrator n_val = Ok sim
     /\ run_fails sim 1000 (VPSA_Robust.initial_state sim) e) ->
  main.run_one ca_integrator n_val = Raise e
  /\ exists out',
       main.sweep ca_integrator (before ++ n_val :: after) results out
       = (out ++ out', Raise e)
       /\ map main.row_N out' = before.
Proof.
  intros Hbefore (sim & Hinit & Hfails).
  assert (Hone : main.run_one ca_integrator n_val = Raise e).
  { apply (run_one_raise _ _ sim); [exact Hinit |].
    unfold VPSA_Robust.simulate_css. apply run_fails_css_loop, Hfails. }
  split; [exact Hone |].
  apply sweep_raises_at; assumption.
Qed.

Lemma fails_on_75_at_15 :
  exists sim,
    VPSA_Robust.init fails_on_75 15 = Ok sim
    /\ run_fails sim 1000 (VPSA_Robust.initial_state sim) RuntimeError.
Proof.
  eexists. split; [reflexivity |].
  change 1000%nat with (S 999).
  apply fails_now.
  exists [], {| ps_type := 0; ps_duration := 20;
                ps_P_low := 1e4; ps_P_high := 1e5 |},
    (tl the_cycle).
  eexists. split; [reflexivity |]. split; reflexivity.
Qed.

Lemma integration_failure_ends_the_sweep_witness :
  main.run_one fails_on_75 15 = Raise RuntimeError
  /\ exists out',
       main.sweep fails_on_75 ([] ++ 15%nat :: [20; 25; 30; 35; 40]%nat) [] []
       = ([] ++ out', Raise RuntimeError)
       /\ map main.row_N out' = [].
Proof.
  apply (integration_failure_ends_the_sweep fails_on_75 [] 15
           [20; 25; 30; 35; 40]%nat RuntimeError [] []).
  - constructor.
  - exact fails_on_75_at_15.
Defined.

Lemma vsub_self_sum (x : list R) :
  fold_right (fun e s => e * e + s) 0 (vsub x x) = 0.
Proof.
  induction x as [| h t IH]; simpl; [reflexivity |].
  unfold vsub in IH. rewrite IH. ring.
Qed.

Lemma rel_err_self (x : list R) : rel_err x x = 0.
Proof.
  unfold rel_err, norm. rewrite vsub_self_sum, sqrt_0.
  unfold Rdiv. ring.
Qed.

(** With [fails_on_75] the 20-cell run succeeds on its own: it meets the
    tolerance in its first cycle. *)
Lemma fails_on_75_at_20 :
  exists en r, main.run_one fails_on_75 20 = Ok (en, r).
Proof.
  unfold main.run_one.
  destruct (VPSA_Robust.init fails_on_75 20) as [sim | e] eqn:Hinit;
    [| discriminate Hinit].
  injection Hinit as Hsim.
  assert (Hcycle : forall x, VPSA_Robust.run_cycle sim x = Ok x).
  { intros x. rewrite <- Hsim. reflexivity. }
  cbn [bind]. unfold VPSA_Robust.simulate_css.
  change 1000%nat with (S 999).
  rewrite (css_loop_stop sim 999 _ _ [] (Hcycle _))
    by (rewrite rel_err_self; lra).
  cbn [bind app main.last_item]. eexists. eexists. reflexivity.
Qed.

(** C9 as the spec words it fails: with an integrator that fails on the
    15-cell model only, the 20-cell run would succeed, but the sweep ends
    at the first size and prints no row for it. *)
Lemma sweep_does_not_isolate_failures : ~ failures_isolated fails_on_75.
Proof.
  intros Hiso.
  destruct fails_on_75_at_20 as (en & r & Hrun).
  assert (Hin : In 20%nat main.N_values) by (simpl; auto).
  specialize (Hiso 20%nat en r Hin Hrun).
  assert (Hfail : main.run_one fails_on_75 15 = Raise RuntimeError).
  { destruct fails_on_75_at_15 as (sim & Hinit & Hfails).
    apply (run_one_raise _ _ sim); [exact Hinit |].
    unfold VPSA_Robust.simulate_css. apply run_fails_css_loop, Hfails. }
  destruct (sweep_raises_at fails_on_75 [] 15 [20; 25; 30; 35; 40]%nat
              RuntimeError (Forall_nil _) Hfail [] [])
    as (out' & Heq & Hrows).
  apply map_eq_nil in Hrows. subst out'.
  unfold main.run, main.N_values in Hiso. simpl app in Heq.
  rewrite Heq in Hiso. simpl in Hiso. exact Hiso.
Qed.

(** * Further properties of the code *)

(** ** The isotherm over the reals: saturation and vanishing components *)



(** Over the reals an absent component has no loading. *)
Lemma real_absent_component (c_total y T : R) :
  get_isotherm 0 y T = (0, 0)
  /\ fst (get_isotherm c_total 0 T) = 0
  /\ snd (get_isotherm c_total 1 T) = 0
  /\ get_isotherm_numeric 0 y T = (0, 0).
Proof.
  assert (E : get_isotherm 0 y T = (0, 0)).
  { rewrite get_isotherm_unfold. f_equal; unfold Rdiv; ring. }
  split; [exact E |].
  split; [rewrite get_isotherm_unfold; cbn [fst]; unfold Rdiv; ring |].
  split; [rewrite get_isotherm_unfold; cbn [snd]; unfold Rdiv; ring |].
  replace (get_isotherm_numeric 0 y T)
    with (get_isotherm (0 / (self.R_gas * T)) y T) by reflexivity.
  replace (0 / (self.R_gas * T)) with 0 by (unfold Rdiv; ring).
  exact E.
Qed.

(** ** The state vector and the boundary pressure *)

Lemma skipn_slice (a n : nat) (v : list R) :
  skipn a v = slice a (a + n) v ++ skipn (a + n) v.
Proof.
  unfold slice. replace (a + n - a)%nat with n by lia.
  replace (a + n)%nat with (n + a)%nat by lia.
  rewrite <- skipn_skipn. symmetry. apply firstn_skipn.
Qed.

Lemma state_blocks (N : nat) (x : list R) :
  length x = (5 * N)%nat ->
  x = build_model.y N x ++ build_model.P_bar N x ++ build_model.T N x
      ++ build_model.q0 N x ++ build_model.q1 N x
  /\ length (build_model.y N x) = N
  /\ length (build_model.P_bar N x) = N
  /\ length (build_model.T N x) = N
  /\ length (build_model.q0 N x) = N
  /\ length (build_model.q1 N x) = N.
Proof.
  intros Hlen.
  unfold build_model.y, build_model.P_bar, build_model.T, build_model.q0,
    build_model.q1.
  split.
  - change x with (skipn 0 x) at 1.
    rewrite (skipn_slice 0 N). replace (0 + N)%nat with (1 * N)%nat by lia.
    rewrite (skipn_slice (1 * N) N).
    replace (1 * N + N)%nat with (2 * N)%nat by lia.
    rewrite (skipn_slice (2 * N) N).
    replace (2 * N + N)%nat with (3 * N)%nat by lia.
    rewrite (skipn_slice (3 * N) N).
    replace (3 * N + N)%nat with (4 * N)%nat by lia.
    rewrite (skipn_slice (4 * N) N).
    replace (4 * N + N)%nat with (5 * N)%nat by lia.
    rewrite (skipn_all2 x) by lia.
    rewrite app_nil_r. reflexivity.
  - repeat split; rewrite slice_length; lia.
Qed.

(** The five blocks [y], [P_bar], [T], [q0], [q1] that [build_model] cuts
    out of a state of 5N entries have N entries each and, put end to end,
    are the state: every entry is in exactly one block. *)
Theorem state_blocks_partition (N : nat) (x : list R) :
  length x = (5 * N)%nat ->
  x = build_model.y N x ++ build_model.P_bar N x ++ build_model.T N x
      ++ build_model.q0 N x ++ build_model.q1 N x
  /\ length (build_model.y N x) = N
  /\ length (build_model.P_bar N x) = N
  /\ length (build_model.T N x) = N
  /\ length (build_model.q0 N x) = N
  /\ length (build_model.q1 N x) = N.
Proof. exact (state_blocks N x). Qed.

Lemma state_blocks_partition_witness :
  let x := [0; 0; 0.1; 0.1; 298.15; 298.15; 0; 0; 1; 1] in
  x = build_model.y 2 x ++ build_model.P_bar 2 x ++ build_model.T 2 x
      ++ build_model.q0 2 x ++ build_model.q1 2 x
  /\ length (build_model.y 2 x) = 2%nat
  /\ length (build_model.P_bar 2 x) = 2%nat
  /\ length (build_model.T 2 x) = 2%nat
  /\ length (build_model.q0 2 x) = 2%nat
  /\ length (build_model.q1 2 x) = 2%nat.
Proof.
  apply (state_blocks_partition 2). reflexivity.
Defined.

Lemma relaxation_factor (duration tau : R) :
  0 <= duration -> 0 <= tau ->
  0 < exp (- (5.0 / (duration + 1e-3)) * (tau * duration)) <= 1.
Proof.
  intros Hd Ht. split; [apply exp_pos |].
  assert (Hl : 0 < 5.0 / (duration + 1e-3))
    by (apply Rdiv_lt_0_compat; lra).
  assert (Hp : 0 <= tau * duration) by (apply Rmult_le_pos; assumption).
  assert (Harg : - (5.0 / (duration + 1e-3)) * (tau * duration) <= 0) by nra.
  destruct Harg as [Hlt | Heq].
  - left. pose proof (exp_increasing _ _ Hlt) as H.
    rewrite exp_0 in H. exact H.
  - rewrite Heq, exp_0. right. reflexivity.
Qed.

(** With bounds [0 <= P_L <= P_H], a duration and a time that are not
    negative, the boundary pressure never leaves the range of the cycle:
    the pressurisation and blowdown pressures stay between [P_L] and [P_H],
    the evacuation pressure between the vacuum level [P_L / 2] and [P_L],
    and so the selected pressure is between [P_L / 2] and [P_H] for every
    step-type code. *)
Theorem boundary_pressure_in_range (s duration dummy P_L P_H tau : R) :
  0 <= P_L <= P_H -> 0 <= duration -> 0 <= tau ->
  let u := [s; duration; dummy; P_L; P_H] in
  P_L <= build_model.P_bound_press u tau <= P_H
  /\ P_L <= build_model.P_bound_blow u tau <= P_H
  /\ P_L * 0.5 <= build_model.P_bound_evac u tau <= P_L
  /\ P_L * 0.5 <= build_model.P_bound u tau <= P_H.
Proof.
  intros HP Hd Ht u.
  pose proof (relaxation_factor duration tau Hd Ht) as HE.
  assert (Hpress : P_L <= build_model.P_bound_press u tau <= P_H).
  { unfold build_model.P_bound_press, build_model.lam, build_model.t_phys,
      build_model.P_high, build_model.P_low, build_model.duration, u.
    cbn [nth]. nra. }
  assert (Hblow : P_L <= build_model.P_bound_blow u tau <= P_H).
  { unfold build_model.P_bound_blow, build_model.lam, build_model.t_phys,
      build_model.P_high, build_model.P_low, build_model.duration, u.
    cbn [nth]. nra. }
  assert (Hevac : P_L * 0.5 <= build_model.P_bound_evac u tau <= P_L).
  { unfold build_model.P_bound_evac, build_model.P_vac, build_model.lam,
      build_model.t_phys, build_model.P_low, build_model.duration, u.
    cbn [nth]. nra. }
  split; [exact Hpress |]. split; [exact Hblow |]. split; [exact Hevac |].
  unfold build_model.P_bound. rewrite !if_else_select.
  assert (HH : build_model.P_high u = P_H) by reflexivity.
  destruct (lt (build_model.step_type u) 0.5); [lra |].
  destruct (lt (build_model.step_type u) 1.5); [lra |].
  destruct (lt (build_model.step_type u) 2.5); lra.
Qed.

Lemma boundary_pressure_in_range_witness :
  let u := [0; 20; 0; 1e4; 1e5] in
  1e4 <= build_model.P_bound_press u 0.5 <= 1e5
  /\ 1e4 <= build_model.P_bound_blow u 0.5 <= 1e5
  /\ 1e4 * 0.5 <= build_model.P_bound_evac u 0.5 <= 1e4
  /\ 1e4 * 0.5 <= build_model.P_bound u 0.5 <= 1e5.
Proof.
  apply (boundary_pressure_in_range 0 20 0 1e4 1e5 0.5); lra.
Defined.

(** For a duration that is not negative (so that the rate
    [5 / (duration + 1e-3)] is a quotient by a positive number), at the
    start of a step ([tau = 0]) the relaxing boundary pressures are at
    their starting levels: pressurisation at [P_L], blowdown at [P_H],
    evacuation at [P_L]; and at every time the pressurisation and blowdown
    pressures mirror each other about the middle of the two bounds. *)
Theorem boundary_pressure_at_step_start (s duration dummy P_L P_H tau : R) :
  0 <= duration ->
  let u := [s; duration; dummy; P_L; P_H] in
  0 < duration + 1e-3
  /\ 0 < build_model.lam u
  /\ build_model.P_bound_press u 0 = P_L
  /\ build_model.P_bound_blow u 0 = P_H
  /\ build_model.P_bound_evac u 0 = P_L
  /\ build_model.P_bound_press u tau + build_model.P_bound_blow u tau
     = P_L + P_H.
Proof.
  intros Hd u.
  assert (Hdiv : 0 < duration + 1e-3) by lra.
  assert (Hlam : 0 < build_model.lam u).
  { unfold build_model.lam, build_model.duration, u. cbn [nth].
    apply Rdiv_lt_0_compat; lra. }
  assert (E0 : exp (- build_model.lam u * build_model.t_phys u 0) = 1).
  { unfold build_model.t_phys.
    replace (- build_model.lam u * (0 * build_model.duration u)) with 0
      by ring.
    apply exp_0. }
  split; [exact Hdiv |]. split; [exact Hlam |].
  unfold build_model.P_bound_press, build_model.P_bound_blow,
    build_model.P_bound_evac, build_model.P_vac.
  rewrite E0.
  unfold build_model.P_high, build_model.P_low, u. cbn [nth].
  repeat split; ring.
Qed.

Lemma boundary_pressure_at_step_start_witness :
  let u := [0; 20; 0; 1e4; 1e5] in
  0 < 20 + 1e-3
  /\ 0 < build_model.lam u
  /\ build_model.P_bound_press u 0 = 1e4
  /\ build_model.P_bound_blow u 0 = 1e5
  /\ build_model.P_bound_evac u 0 = 1e4
  /\ build_model.P_bound_press u 0.5 + build_model.P_bound_blow u 0.5
     = 1e4 + 1e5.
Proof.
  apply (boundary_pressure_at_step_start 0 20 0 1e4 1e5 0.5). lra.
Defined.

(** ** Face velocities *)

Lemma tanh_quotient (z : R) :
  tanh z = (exp z - exp (- z)) / (exp z + exp (- z)).
Proof.
  pose proof (exp_pos z) as Ha. pose proof (exp_pos (- z)) as Hb.
  unfold tanh, sinh, cosh. field. lra.
Qed.


Lemma tanh_pos (z : R) : 0 < z -> 0 < tanh z.
Proof.
  intros Hz. rewrite tanh_quotient.
  pose proof (exp_pos z) as Ha. pose proof (exp_pos (- z)) as Hb.
  assert (Hlt : exp (- z) < exp z) by (apply exp_increasing; lra).
  apply Rdiv_lt_0_compat; lra.
Qed.

Lemma tanh_neg (z : R) : z < 0 -> tanh z < 0.
Proof.
  intros Hz. rewrite tanh_quotient.
  pose proof (exp_pos z) as Ha. pose proof (exp_pos (- z)) as Hb.
  assert (Hlt : exp z < exp (- z)) by (apply exp_increasing; lra).
  assert (H : 0 < (exp (- z) - exp z) / (exp z + exp (- z)))
    by (apply Rdiv_lt_0_compat; lra).
  replace ((exp z - exp (- z)) / (exp z + exp (- z)))
    with (- ((exp (- z) - exp z) / (exp z + exp (- z))))
    by (field; lra).
  lra.
Qed.

Lemma tanh_zero : tanh 0 = 0.
Proof. unfold tanh. rewrite sinh_0. unfold Rdiv. ring. Qed.


Lemma upd_length (i : nat) (e : R) (v : list R) :
  length (upd i e v) = length v.
Proof.
  revert i. induction v as [| h t IH]; intros [| i]; simpl;
    try reflexivity. now rewrite IH.
Qed.

Lemma upd_nth (i : nat) (e : R) (v : list R) (j : nat) :
  (i < length v)%nat ->
  (upd i e v)@j = if (i =? j)%nat then e else v@j.
Proof.
  revert i j. induction v as [| h t IH]; intros i j Hi; simpl in Hi; [lia |].
  destruct i as [| i], j as [| j]; simpl; try reflexivity.
  apply IH. lia.
Qed.

Lemma upd_fold_length (f : nat -> R) (idx : list nat) (v : list R) :
  length (fold_left (fun vf i => upd i (f i) vf) idx v) = length v.
Proof.
  revert v. induction idx as [| i idx IH]; intros v; simpl;
    [reflexivity |]. rewrite IH. apply upd_length.
Qed.

Lemma upd_fold_nth (f : nat -> R) (idx : list nat) (v : list R) (j : nat) :
  Forall (fun i => (i < length v)%nat) idx ->
  (fold_left (fun vf i => upd i (f i) vf) idx v)@j
  = if existsb (fun i => (i =? j)%nat) idx then f j else v@j.
Proof.
  revert v. induction idx as [| i idx IH]; intros v Hall; simpl;
    [reflexivity |].
  inversion Hall as [| ? ? Hi Hrest]; subst.
  rewrite IH by (rewrite upd_length; exact Hrest).
  rewrite upd_nth by exact Hi.
  destruct (Nat.eqb_spec i j) as [-> | Hne]; simpl.
  - destruct (existsb (fun i => (i =? j)%nat) idx); reflexivity.
  - reflexivity.
Qed.

Lemma v_face_entries (N : nat) (x u : list R) (tau : R) :
  (1 <= N)%nat ->
  length (build_model.v_face N x u tau) = (N + 1)%nat
  /\ (build_model.v_face N x u tau)@0 = build_model.v0 N x u tau
  /\ (build_model.v_face N x u tau)@N = build_model.vN N x u tau
  /\ forall i, (1 <= i < N)%nat ->
       (build_model.v_face N x u tau)@i = build_model.v_interior N x i.
Proof.
  intros HN. unfold build_model.v_face. cbv zeta.
  set (f := build_model.v_interior N x).
  set (inner := fold_left (fun vf i => upd i (f i) vf) (seq 1 (N - 1))
                  (repeat 0 (N + 1))).
  assert (Hlen : length inner = (N + 1)%nat).
  { unfold inner. rewrite upd_fold_length. apply repeat_length. }
  assert (Hinner : forall j, (1 <= j < N)%nat -> inner@j = f j).
  { intros j Hj. unfold inner. rewrite upd_fold_nth.
    - assert (Hex : existsb (fun i => (i =? j)%nat) (seq 1 (N - 1)) = true).
      { apply existsb_exists. exists j. split;
          [apply in_seq; lia | apply Nat.eqb_refl]. }
      rewrite Hex. reflexivity.
    - apply Forall_forall. intros i Hi. apply in_seq in Hi.
      rewrite repeat_length. lia. }
  split; [rewrite !upd_length; exact Hlen |].
  split.
  { rewrite upd_nth by (rewrite upd_length; lia).
    destruct (Nat.eqb_spec N 0); [lia |].
    rewrite upd_nth by lia. reflexivity. }
  split.
  { rewrite upd_nth by (rewrite upd_length; lia).
    rewrite Nat.eqb_refl. reflexivity. }
  intros i Hi.
  rewrite upd_nth by (rewrite upd_length; lia).
  destruct (Nat.eqb_spec N i); [lia |].
  rewrite upd_nth by lia.
  destruct (Nat.eqb_spec 0 i); [lia |].
  apply Hinner. exact Hi.
Qed.

(** The face velocities of a mesh of at least one cell: N + 1 entries, the
    inlet value [v0] at face 0, the outlet value [vN] at face N, and the
    Darcy velocity of the pressure difference at every interior face. *)
Theorem v_face_layout (N : nat) (x u : list R) (tau : R) :
  (1 <= N)%nat ->
  length (build_model.v_face N x u tau) = (N + 1)%nat
  /\ (build_model.v_face N x u tau)@0 = build_model.v0 N x u tau
  /\ (build_model.v_face N x u tau)@N = build_model.vN N x u tau
  /\ forall i, (1 <= i < N)%nat ->
       (build_model.v_face N x u tau)@i = build_model.v_interior N x i.
Proof. exact (v_face_entries N x u tau). Qed.

Lemma v_face_layout_witness :
  length (build_model.v_face 2 [0; 0; 0.1; 0.2; 298.15; 298.15; 0; 0; 1; 1]
            [0; 20; 0; 1e4; 1e5] 0.5) = 3%nat.
Proof.
  assert (H : (1 <= 2)%nat) by lia.
  exact (proj1 (v_face_layout 2 [0; 0; 0.1; 0.2; 298.15; 298.15; 0; 0; 1; 1]
                  [0; 20; 0; 1e4; 1e5] 0.5 H)).
Defined.



Lemma K_darcy_pos : 0 < self.K_darcy.
Proof.
  unfold self.K_darcy, self.r_p, self.eps, self.mu.
  apply Rdiv_lt_0_compat.
  - apply Rmult_lt_0_compat; apply pow_lt; lra.
  - apply Rmult_lt_0_compat; [| lra].
    apply Rmult_lt_0_compat; [lra | apply pow_lt; lra].
Qed.

Lemma dz_pos (N : nat) : (1 <= N)%nat -> 0 < build_model.dz N.
Proof.
  intros HN. unfold build_model.dz, self.L.
  apply Rdiv_lt_0_compat; [lra | apply lt_0_INR; lia].
Qed.

(** Darcy flow runs down the pressure gradient: at an interior face the
    velocity is negative when the pressure of the cell on its right is the
    higher one, positive when it is the lower one, and zero when the two
    pressures are equal. *)
Theorem interior_velocity_direction (N : nat) (x u : list R) (tau : R)
  (i : nat) :
  (1 <= i < N)%nat ->
  let P := build_model.P N x in
  let v := (build_model.v_face N x u tau)@i in
  (P@(i - 1) < P@i -> v < 0)
  /\ (P@i < P@(i - 1) -> 0 < v)
  /\ (P@i = P@(i - 1) -> v = 0).
Proof.
  intros Hi P v.
  destruct (v_face_entries N x u tau) as (_ & _ & _ & Hin); [lia |].
  unfold v. rewrite Hin by exact Hi.
  unfold build_model.v_interior. cbv zeta. fold P.
  pose proof K_darcy_pos as HK.
  assert (Hdz : 0 < build_model.dz N) by (apply dz_pos; lia).
  assert (Hinv : 0 < / build_model.dz N) by (apply Rinv_0_lt_compat, Hdz).
  assert (Hvm : build_model.v_max = 5) by (unfold build_model.v_max; lra).
  rewrite Hvm.
  set (g := (P@i - P@(i - 1)) / build_model.dz N).
  assert (Hkg : forall z, 0 < z -> 0 < self.K_darcy * z / 5).
  { intros z Hz. apply Rdiv_lt_0_compat; [| lra].
    apply Rmult_lt_0_compat; assumption. }
  split; [| split]; intros HP.
  - assert (Hg : 0 < g)
      by (unfold g; apply Rdiv_lt_0_compat; [lra | exact Hdz]).
    pose proof (Hkg g Hg) as Ha.
    assert (Ht : tanh (- self.K_darcy * g / 5) < 0)
      by (apply tanh_neg;
          replace (- self.K_darcy * g / 5) with (- (self.K_darcy * g / 5))
            by (unfold Rdiv; ring); lra).
    lra.
  - assert (Hg : 0 < - g).
    { unfold g.
      replace (- ((P@i - P@(i - 1)) / build_model.dz N))
        with ((P@(i - 1) - P@i) / build_model.dz N) by (unfold Rdiv; ring).
      apply Rdiv_lt_0_compat; [lra | exact Hdz]. }
    pose proof (Hkg (- g) Hg) as Ha.
    assert (Ht : 0 < tanh (- self.K_darcy * g / 5))
      by (apply tanh_pos;
          replace (- self.K_darcy * g / 5) with (self.K_darcy * - g / 5)
            by (unfold Rdiv; ring); lra).
    lra.
  - assert (Hg : g = 0) by (unfold g; rewrite HP; unfold Rdiv; ring).
    rewrite Hg.
    replace (- self.K_darcy * 0 / 5) with 0 by (unfold Rdiv; ring).
    rewrite tanh_zero. ring.
Qed.

Lemma interior_velocity_direction_witness :
  let x := [0; 0; 0.1; 0.2; 298.15; 298.15; 0; 0; 1; 1] in
  (build_model.P 2 x)@0 < (build_model.P 2 x)@1
  /\ (build_model.v_face 2 x [0; 20; 0; 1e4; 1e5] 0.5)@1 < 0.
Proof.
  intros x.
  assert (Hi : (1 <= 1 < 2)%nat) by lia.
  assert (HP : (build_model.P 2 x)@(1 - 1) < (build_model.P 2 x)@1).
  { unfold build_model.P, build_model.P_bar, slice, x, self.P_scale.
    simpl. lra. }
  split; [exact HP |].
  exact (proj1 (interior_velocity_direction 2 x [0; 20; 0; 1e4; 1e5] 0.5 1 Hi)
           HP).
Defined.

(** ** The upwind blend and the fluxes *)




(** The two cells of an interior face see the same face values, but not
    the same flux: the mole fraction and temperature on the right face of
    cell [i] are those on the left face of cell [i + 1], while the molar
    flux leaving cell [i] is computed with the pressure of cell [i] and the
    flux entering cell [i + 1] with the pressure of cell [i + 1]; the two
    fluxes are in the ratio of the two cell pressures. *)
Theorem interior_face_values_and_fluxes (N : nat) (x u : list R) (tau : R)
  (i : nat) :
  (i + 1 < N)%nat ->
  let P := build_model.P N x in
  build_model.yR N x u tau i = build_model.yL N x u tau (i + 1)
  /\ build_model.TR N x u tau i = build_model.TL N x u tau (i + 1)
  /\ build_model.Fout N x u tau i * P@(i + 1)
     = build_model.Fin N x u tau (i + 1) * P@i
  /\ (P@i = P@(i + 1) ->
      build_model.Fout N x u tau i = build_model.Fin N x u tau (i + 1)).
Proof.
  intros Hi P.
  assert (Hphi : build_model.phi_r N x u tau i
                 = build_model.phi_l N x u tau (i + 1)) by reflexivity.
  assert (Hy : build_model.yR N x u tau i = build_model.yL N x u tau (i + 1)).
  { unfold build_model.yR, build_model.yL. rewrite Hphi.
    destruct (Nat.eqb_spec i (N - 1)); [lia |].
    destruct (Nat.eqb_spec (i + 1) 0); [lia |].
    replace (i + 1 - 1)%nat with i by lia. reflexivity. }
  assert (HT : build_model.TR N x u tau i = build_model.TL N x u tau (i + 1)).
  { unfold build_model.TR, build_model.TL. rewrite Hphi.
    destruct (Nat.eqb_spec i (N - 1)); [lia |].
    destruct (Nat.eqb_spec (i + 1) 0); [lia |].
    replace (i + 1 - 1)%nat with i by lia. reflexivity. }
  assert (Hflux : build_model.Fout N x u tau i * P@(i + 1)
                  = build_model.Fin N x u tau (i + 1) * P@i).
  { unfold build_model.Fout, build_model.Fin, build_model.rhoR,
      build_model.rhoL. rewrite HT. fold P.
    assert (Hv : build_model.vr N x u tau i = build_model.vl N x u tau (i + 1))
      by reflexivity.
    rewrite Hv. unfold Rdiv. ring. }
  split; [exact Hy |]. split; [exact HT |]. split; [exact Hflux |].
  intros HP.
  unfold build_model.Fout, build_model.Fin, build_model.rhoR,
    build_model.rhoL. rewrite HT. fold P. rewrite HP. reflexivity.
Qed.

Lemma interior_face_values_and_fluxes_witness :
  let x := [0; 0.1; 0.1; 0.2; 298.15; 300; 0; 0; 1; 1] in
  build_model.yR 2 x [0; 20; 0; 1e4; 1e5] 0.5 0
  = build_model.yL 2 x [0; 20; 0; 1e4; 1e5] 0.5 (0 + 1).
Proof.
  intros x.
  assert (Hi : (0 + 1 < 2)%nat) by lia.
  exact (proj1 (interior_face_values_and_fluxes 2 x [0; 20; 0; 1e4; 1e5]
                  0.5 0 Hi)).
Defined.

(** ** The right-hand side as a vector *)

Lemma map2_length {X Y Z : Type} (f : X -> Y -> Z) (a : list X)
  (b : list Y) :
  length (map2 f a b) = Nat.min (length a) (length b).
Proof.
  revert b. induction a as [| h t IH]; intros [| h' t']; simpl;
    try reflexivity. now rewrite IH.
Qed.

Lemma map2_nth {X Y Z : Type} (f : X -> Y -> Z) (a : list X) (b : list Y)
  (i : nat) (dx : X) (dy : Y) (dz : Z) :
  (i < length a)%nat -> (i < length b)%nat ->
  nth i (map2 f a b) dz = f (nth i a dx) (nth i b dy).
Proof.
  revert b i. induction a as [| h t IH]; intros [| h' t'] i Ha Hb;
    simpl in *; try lia.
  destruct i as [| i]; [reflexivity | apply IH; lia].
Qed.

Lemma map3_length {X Y Z W : Type} (f : X -> Y -> Z -> W) (a : list X)
  (b : list Y) (c : list Z) :
  length (map3 f a b c)
  = Nat.min (length a) (Nat.min (length b) (length c)).
Proof.
  revert b c. induction a as [| h t IH]; intros [| h' t'] [| h'' t''];
    simpl; try reflexivity. now rewrite IH.
Qed.

Lemma map3_nth {X Y Z W : Type} (f : X -> Y -> Z -> W) (a : list X)
  (b : list Y) (c : list Z) (i : nat) (dx : X) (dy : Y) (dz : Z) (dw : W) :
  (i < length a)%nat -> (i < length b)%nat -> (i < length c)%nat ->
  nth i (map3 f a b c) dw = f (nth i a dx) (nth i b dy) (nth i c dz).
Proof.
  revert b c i. induction a as [| h t IH];
    intros [| h' t'] [| h'' t''] i Ha Hb Hc; simpl in *; try lia.
  destruct i as [| i]; [reflexivity | apply IH; lia].
Qed.

Lemma map_seq_nth (f : nat -> R) (n i : nat) :
  (i < n)%nat -> (map f (seq 0 n))@i = f i.
Proof.
  intros Hi.
  rewrite (nth_indep _ 0 (f 0%nat)) by (rewrite length_map, length_seq; lia).
  rewrite map_nth, seq_nth by lia. reflexivity.
Qed.

Lemma rhs_lengths (N : nat) (x u : list R) (tau : R) :
  length (build_model.rhs_scaled N x u tau) = build_model.nx N
  /\ length (build_model.dy_dt N x u tau) = N
  /\ length (build_model.dP_dt N x u tau) = N
  /\ length (build_model.dT_dt N x u tau) = N
  /\ length (build_model.dq0_dt N x) = N
  /\ length (build_model.dq1_dt N x) = N.
Proof.
  unfold build_model.rhs_scaled, build_model.rhs, build_model.nx,
    build_model.dy_dt, build_model.dP_dt, build_model.dT_dt,
    build_model.dq0_dt, build_model.dq1_dt.
  rewrite length_map, !length_app, !length_map, !length_seq.
  repeat split. lia.
Qed.

(** The right-hand side has the dimension of the state it is declared
    for: five blocks of N derivatives, 5N entries, whatever vector is
    passed as the state. *)
Theorem rhs_dimension (N : nat) (x u : list R) (tau : R) :
  length (build_model.rhs_scaled N x u tau) = build_model.nx N
  /\ length (build_model.dy_dt N x u tau) = N
  /\ length (build_model.dP_dt N x u tau) = N
  /\ length (build_model.dT_dt N x u tau) = N
  /\ length (build_model.dq0_dt N x) = N
  /\ length (build_model.dq1_dt N x) = N.
Proof. exact (rhs_lengths N x u tau). Qed.

Lemma map_R_nth (g : R -> R) (v : list R) (i : nat) :
  (i < length v)%nat -> (map g v)@i = g v@i.
Proof.
  intros Hi.
  rewrite (nth_indep _ 0 (g 0)) by (rewrite length_map; exact Hi).
  apply map_nth.
Qed.

Lemma rhs_entries (N : nat) (x u : list R) (tau : R) (i : nat) :
  (i < N)%nat ->
  let rhs := build_model.rhs_scaled N x u tau in
  let d := build_model.duration u in
  rhs@i = build_model.dy N x u tau i * d
  /\ rhs@(N + i) = build_model.dP N x u tau i / self.P_scale * d
  /\ rhs@(2 * N + i) = build_model.dT N x u tau i * d
  /\ rhs@(3 * N + i) = (build_model.rate0 N x)@i * d
  /\ rhs@(4 * N + i) = (build_model.rate1 N x)@i * d.
Proof.
  intros Hi rhs d.
  destruct (rhs_lengths N x u tau) as (Hlen & Ly & LP & LT & L0 & L1).
  unfold build_model.nx in Hlen.
  assert (Hscaled : forall j, (j < 5 * N)%nat ->
            rhs@j = (build_model.rhs N x u tau)@j * d).
  { intros j Hj. unfold rhs, build_model.rhs_scaled.
    unfold build_model.rhs_scaled in Hlen. rewrite length_map in Hlen.
    rewrite map_R_nth by lia. reflexivity. }
  set (A := build_model.dy_dt N x u tau) in *.
  set (B := map (fun e => e / self.P_scale) (build_model.dP_dt N x u tau)).
  set (C := build_model.dT_dt N x u tau) in *.
  set (D := build_model.dq0_dt N x) in *.
  set (E := build_model.dq1_dt N x) in *.
  assert (LB : length B = N) by (unfold B; rewrite length_map; exact LP).
  assert (Hrhs : build_model.rhs N x u tau = A ++ B ++ C ++ D ++ E)
    by reflexivity.
  rewrite !Hscaled by lia. rewrite Hrhs.
  split.
  { rewrite app_nth1 by lia. unfold A, build_model.dy_dt.
    rewrite map_seq_nth by lia. reflexivity. }
  split.
  { rewrite app_nth2 by lia. rewrite app_nth1 by lia.
    replace (N + i - length A)%nat with i by lia.
    unfold B. rewrite map_R_nth by lia.
    unfold build_model.dP_dt. rewrite map_seq_nth by lia. reflexivity. }
  split.
  { rewrite app_nth2 by lia. rewrite app_nth2 by lia. rewrite app_nth1 by lia.
    replace (2 * N + i - length A - length B)%nat with i by lia.
    unfold C, build_model.dT_dt. rewrite map_seq_nth by lia. reflexivity. }
  split.
  { rewrite app_nth2 by lia. rewrite app_nth2 by lia. rewrite app_nth2 by lia.
    rewrite app_nth1 by lia.
    replace (3 * N + i - length A - length B - length C)%nat with i by lia.
    unfold D, build_model.dq0_dt. rewrite map_seq_nth by lia. reflexivity. }
  { rewrite app_nth2 by lia. rewrite app_nth2 by lia. rewrite app_nth2 by lia.
    rewrite app_nth2 by lia.
    replace (4 * N + i - length A - length B - length C - length D)%nat
      with i by lia.
    unfold E, build_model.dq1_dt. rewrite map_seq_nth by lia. reflexivity. }
Qed.

(** The derivative vector is laid out like the state: entry [k N + i] is
    the derivative of cell [i] of block [k] (mole fraction, scaled
    pressure, temperature, the two loadings), the pressure derivative being
    divided by the pressure scale, and every entry is multiplied by the
    duration of the step. *)
Theorem rhs_block_layout (N : nat) (x u : list R) (tau : R) (i : nat) :
  (i < N)%nat ->
  let rhs := build_model.rhs_scaled N x u tau in
  let d := build_model.duration u in
  rhs@i = build_model.dy N x u tau i * d
  /\ rhs@(N + i) = build_model.dP N x u tau i / self.P_scale * d
  /\ rhs@(2 * N + i) = build_model.dT N x u tau i * d
  /\ rhs@(3 * N + i) = (build_model.rate0 N x)@i * d
  /\ rhs@(4 * N + i) = (build_model.rate1 N x)@i * d.
Proof. exact (rhs_entries N x u tau i). Qed.

Lemma rhs_block_layout_witness :
  let x := [0; 0.1; 0.1; 0.2; 298.15; 300; 0; 0; 1; 1] in
  let u := [0; 20; 0; 1e4; 1e5] in
  (build_model.rhs_scaled 2 x u 0.5)@1
  = build_model.dy 2 x u 0.5 1 * build_model.duration u.
Proof.
  intros x u.
  assert (Hi : (1 < 2)%nat) by lia.
  exact (proj1 (rhs_block_layout 2 x u 0.5 1 Hi)).
Defined.

(** The cell values of the derived vectors, on a state of 5N entries. *)
Lemma cell_values (N : nat) (x : list R) (i : nat) :
  length x = (5 * N)%nat -> (i < N)%nat ->
  (build_model.P N x)@i = (build_model.P_bar N x)@i * self.P_scale
  /\ (build_model.C_total N x)@i
     = (build_model.P N x)@i / (self.R_gas * (build_model.T N x)@i)
  /\ (build_model.rate0 N x)@i
     = self.k_LDF
       * (fst (get_isotherm (build_model.C_total N x)@i
                 (build_model.y N x)@i (build_model.T N x)@i)
          - (build_model.q0 N x)@i)
  /\ (build_model.rate1 N x)@i
     = self.k_LDF
       * (snd (get_isotherm (build_model.C_total N x)@i
                 (build_model.y N x)@i (build_model.T N x)@i)
          - (build_model.q1 N x)@i).
Proof.
  intros Hlen Hi.
  destruct (state_blocks N x Hlen) as (_ & Ly & LPb & LT & L0 & L1).
  assert (LP : length (build_model.P N x) = N)
    by (unfold build_model.P; rewrite length_map; exact LPb).
  assert (LC : length (build_model.C_total N x) = N)
    by (unfold build_model.C_total; rewrite map2_length; lia).
  assert (LS : length (build_model.q_star N x) = N)
    by (unfold build_model.q_star; rewrite map3_length; lia).
  assert (HS : nth i (build_model.q_star N x) (0, 0)
               = get_isotherm (build_model.C_total N x)@i
                   (build_model.y N x)@i (build_model.T N x)@i).
  { unfold build_model.q_star. apply map3_nth; lia. }
  split.
  { unfold build_model.P. apply map_R_nth. lia. }
  split.
  { unfold build_model.C_total at 1.
    apply (map2_nth (fun p t => p / (self.R_gas * t))); lia. }
  split.
  { unfold build_model.rate0.
    rewrite (map2_nth _ _ _ i 0 0 0)
      by (unfold build_model.q0_star; rewrite ?length_map; lia).
    unfold build_model.q0_star.
    replace ((map fst (build_model.q_star N x))@i)
      with (fst (nth i (build_model.q_star N x) (0, 0)))
      by (symmetry; exact (map_nth fst _ (0, 0) i)).
    rewrite HS. reflexivity. }
  { unfold build_model.rate1.
    rewrite (map2_nth _ _ _ i 0 0 0)
      by (unfold build_model.q1_star; rewrite ?length_map; lia).
    unfold build_model.q1_star.
    replace ((map snd (build_model.q_star N x))@i)
      with (snd (nth i (build_model.q_star N x) (0, 0)))
      by (symmetry; exact (map_nth snd _ (0, 0) i)).
    rewrite HS. reflexivity. }
Qed.

(** Linear driving force: on a state of 5N entries the derivative of each
    loading of cell [i] is [k_LDF] times the distance of the loading to the
    isotherm value at the cell's concentration [P / (R_gas T)], mole
    fraction and temperature, times the duration; so a loading that sits
    at its isotherm value does not move. *)
Theorem loading_rate_is_linear_driving_force (N : nat) (x u : list R)
  (tau : R) (i : nat) :
  length x = (5 * N)%nat -> (i < N)%nat ->
  let c := (build_model.P_bar N x)@i * self.P_scale
           / (self.R_gas * (build_model.T N x)@i) in
  let q_eq := get_isotherm c (build_model.y N x)@i (build_model.T N x)@i in
  let rhs := build_model.rhs_scaled N x u tau in
  rhs@(3 * N + i)
  = self.k_LDF * (fst q_eq - (build_model.q0 N x)@i) * build_model.duration u
  /\ rhs@(4 * N + i)
     = self.k_LDF * (snd q_eq - (build_model.q1 N x)@i)
       * build_model.duration u
  /\ ((build_model.q0 N x)@i = fst q_eq -> rhs@(3 * N + i) = 0)
  /\ ((build_model.q1 N x)@i = snd q_eq -> rhs@(4 * N + i) = 0).
Proof.
  intros Hlen Hi c q_eq rhs.
  destruct (rhs_entries N x u tau i Hi) as (_ & _ & _ & H3 & H4).
  destruct (cell_values N x i Hlen Hi) as (HP & HC & Hr0 & Hr1).
  fold rhs in H3, H4.
  assert (Hc : (build_model.C_total N x)@i = c)
    by (rewrite HC, HP; reflexivity).
  rewrite Hc in Hr0, Hr1. fold q_eq in Hr0, Hr1.
  rewrite H3, H4, Hr0, Hr1.
  split; [reflexivity |]. split; [reflexivity |].
  split; intros ->; ring.
Qed.

Lemma loading_rate_is_linear_driving_force_witness :
  let x := [0; 0.1; 0.1; 0.2; 298.15; 300; 0; 0; 1; 1] in
  let u := [0; 20; 0; 1e4; 1e5] in
  (build_model.rhs_scaled 2 x u 0.5)@(3 * 2 + 1)
  = self.k_LDF
    * (fst (get_isotherm
              ((build_model.P_bar 2 x)@1 * self.P_scale
               / (self.R_gas * (build_model.T 2 x)@1))
              (build_model.y 2 x)@1 (build_model.T 2 x)@1)
       - (build_model.q0 2 x)@1)
    * build_model.duration u.
Proof.
  intros x u.
  assert (Hlen : length x = (5 * 2)%nat) by reflexivity.
  assert (Hi : (1 < 2)%nat) by lia.
  exact (proj1 (loading_rate_is_linear_driving_force 2 x u 0.5 1 Hlen Hi)).
Defined.

(** On a state with pressures that are not negative and temperatures above
    zero, the gas concentration of a cell is not negative and the effective
    heat capacity, by which the energy balance is divided, is at least the
    heat capacity of the solid, [(1 - eps) rho_s Cp_s = 761733]. *)
Theorem effective_heat_capacity_positive (N : nat) (x u : list R) (i : nat) :
  length x = (5 * N)%nat -> (i < N)%nat ->
  0 <= (build_model.P_bar N x)@i -> 0 < (build_model.T N x)@i ->
  0 <= (build_model.C_total N x)@i
  /\ 761733 <= build_model.Cp_eff N x i.
Proof.
  intros Hlen Hi HP HT.
  destruct (cell_values N x i Hlen Hi) as (EP & EC & _).
  assert (HC : 0 <= (build_model.C_total N x)@i).
  { rewrite EC, EP. unfold Rdiv.
    apply Rmult_le_pos.
    - apply Rmult_le_pos; [exact HP | unfold self.P_scale; lra].
    - left. apply Rinv_0_lt_compat.
      apply Rmult_lt_0_compat; [unfold self.R_gas; lra | exact HT]. }
  split; [exact HC |].
  unfold build_model.Cp_eff, self.eps, self.Cp_g, self.rho_s, self.Cp_s.
  nra.
Qed.

Lemma effective_heat_capacity_positive_witness :
  let x := [0; 0.1; 0.1; 0.2; 298.15; 300; 0; 0; 1; 1] in
  0 <= (build_model.C_total 2 x)@1 /\ 761733 <= build_model.Cp_eff 2 x 1.
Proof.
  intros x.
  apply (effective_heat_capacity_positive 2 x [] 1).
  - reflexivity.
  - lia.
  - unfold build_model.P_bar, slice, x. simpl. lra.
  - unfold build_model.T, slice, x. simpl. lra.
Defined.

(** ** The model object, the residual and the loop *)

(** A model of no cell cannot be built: the cell width [L / N] divides by
    zero.  A model of [n >= 1] cells is built, and its dimensions agree:
    the state of the integrator, the right-hand side and the start-up state
    of [simulate_css] all have [5 n] entries, the parameter vector 5. *)
Theorem init_dimensions (ca_integrator : ca_integrator_t) (n : nat) :
  (n = 0%nat ->
   VPSA_Robust.init ca_integrator n = Raise ZeroDivisionError)
  /\ ((1 <= n)%nat ->
      exists sim,
        VPSA_Robust.init ca_integrator n = Ok sim
        /\ VPSA_Robust.N sim = n
        /\ dae_x (VPSA_Robust.dae sim) = (5 * n)%nat
        /\ dae_p (VPSA_Robust.dae sim) = 5%nat
        /\ (forall x u tau,
              length (dae_ode (VPSA_Robust.dae sim) x u tau) = (5 * n)%nat)
        /\ length (VPSA_Robust.initial_state sim) = (5 * n)%nat).
Proof.
  split.
  - intros ->. reflexivity.
  - intros Hn. unfold VPSA_Robust.init.
    destruct (Nat.eqb_spec n 0); [lia |].
    eexists. split; [reflexivity |].
    split; [reflexivity |]. split; [reflexivity |]. split; [reflexivity |].
    split.
    + intros x u tau. cbn [VPSA_Robust.dae dae_ode].
      apply (rhs_lengths n x u tau).
    + apply initial_state_length.
Qed.

Lemma init_dimensions_witness :
  VPSA_Robust.init steady_integrator 0 = Raise ZeroDivisionError
  /\ exists sim,
       VPSA_Robust.init steady_integrator 15 = Ok sim
       /\ VPSA_Robust.N sim = 15%nat
       /\ dae_x (VPSA_Robust.dae sim) = (5 * 15)%nat
       /\ dae_p (VPSA_Robust.dae sim) = 5%nat
       /\ (forall x u tau,
             length (dae_ode (VPSA_Robust.dae sim) x u tau) = (5 * 15)%nat)
       /\ length (VPSA_Robust.initial_state sim) = (5 * 15)%nat.
Proof.
  split.
  - apply (proj1 (init_dimensions steady_integrator 0)). reflexivity.
  - apply (proj2 (init_dimensions steady_integrator 15)). lia.
Defined.

Lemma norm_nonneg (v : list R) : 0 <= norm v.
Proof. apply sqrt_pos. Qed.

(** The residual of a cycle is never negative and its divisor is at least
    1e-8, so it is never a division by zero, not even from the zero state;
    and a cycle that returns the state it started from has residual 0. *)
Theorem residual_well_defined (x x_start : list R) :
  1e-8 <= norm x_start + 1e-8
  /\ 0 <= rel_err x x_start
  /\ rel_err x_start x_start = 0.
Proof.
  pose proof (norm_nonneg x_start) as Hn.
  pose proof (norm_nonneg (vsub x x_start)) as Hd.
  split; [lra |].
  split; [| apply rel_err_self].
  unfold rel_err, Rdiv.
  apply Rmult_le_pos; [exact Hd |].
  left. apply Rinv_0_lt_compat. lra.
Qed.

(** A state that the cycle leaves unchanged is recognised as the cyclic
    steady state after one cycle: the loop stops there with residual 0,
    whatever budget is left. *)
Theorem fixed_point_stops_after_one_cycle (self : VPSA_Robust.t)
  (x errors : list R) (k : nat) :
  VPSA_Robust.run_cycle self x = Ok x ->
  VPSA_Robust.css_loop self (S k) x errors = Ok (errors ++ [0], x).
Proof.
  intros Hfix.
  rewrite (css_loop_stop self k x x errors Hfix)
    by (rewrite rel_err_self; lra).
  rewrite rel_err_self. reflexivity.
Qed.

Lemma fixed_point_stops_after_one_cycle_witness :
  exists sim,
    VPSA_Robust.init steady_integrator 15 = Ok sim
    /\ VPSA_Robust.css_loop sim (S 999) (VPSA_Robust.initial_state sim) []
       = Ok ([] ++ [0], VPSA_Robust.initial_state sim).
Proof.
  eexists. split; [reflexivity |].
  apply fixed_point_stops_after_one_cycle. reflexivity.
Defined.

Lemma css_loop_shape (self : VPSA_Robust.t) (k : nat) :
  forall (x errors0 errors x' : list R),
    VPSA_Robust.css_loop self k x errors0 = Ok (errors, x') ->
    exists new,
      errors = errors0 ++ new
      /\ (length new <= k)%nat
      /\ ((1 <= k)%nat -> (1 <= length new)%nat)
      /\ Forall above_tolerance (removelast new)
      /\ ((length new < k)%nat -> last new 0 < 1e-3).
Proof.
  induction k as [| k IH]; intros x errors0 errors x' Hrun.
  - simpl in Hrun. injection Hrun as <- <-.
    exists []. rewrite app_nil_r. simpl.
    repeat split; try lia. constructor.
  - destruct (VPSA_Robust.run_cycle self x) as [x1 | e] eqn:Hcyc.
    + destruct (Rlt_dec (rel_err x1 x) 1e-3) as [Hlt | Hge].
      * rewrite (css_loop_stop _ _ _ _ _ Hcyc Hlt) in Hrun.
        injection Hrun as <- <-.
        exists [rel_err x1 x]. simpl.
        repeat split; try lia; [constructor | intros _; exact Hlt].
      * rewrite (css_loop_continue _ _ _ _ _ Hcyc Hge) in Hrun.
        destruct (IH _ _ _ _ Hrun) as (new & Heq & Hlen & Hpos & Hall & Hlast).
        exists (rel_err x1 x :: new).
        split; [rewrite Heq, <- app_assoc; reflexivity |].
        split; [simpl; lia |]. split; [simpl; lia |].
        destruct new as [| e1 new'].
        -- split; [constructor |]. simpl. intros Hk.
           assert (Hk1 : (1 <= k)%nat) by lia.
           specialize (Hpos Hk1). simpl in Hpos. lia.
        -- split.
           ++ change (removelast (rel_err x1 x :: e1 :: new'))
                with (rel_err x1 x :: removelast (e1 :: new')).
              constructor; [exact Hge | exact Hall].
           ++ intros Hk.
              change (last (rel_err x1 x :: e1 :: new') 0)
                with (last (e1 :: new') 0).
              apply Hlast. simpl in Hk |- *. lia.
    + rewrite (css_loop_raise _ _ _ _ _ Hcyc) in Hrun. discriminate Hrun.
Qed.

(** What a caller can read off a returned error history, whether the
    integrator can fail or not: it has at most [cycles] entries, at least
    one when the budget is at least one cycle, and none (with the start-up
    state returned untouched) when the budget is zero; every entry but the
    last is a residual that missed the tolerance; and a history shorter
    than the budget ends with a residual below 1e-3, so a run that used
    fewer cycles than its budget has converged. *)
Theorem simulate_css_history (self : VPSA_Robust.t) (cycles : nat)
  (make_plot : bool) (errors x' : list R) :
  VPSA_Robust.simulate_css self cycles make_plot = Ok (errors, x') ->
  (length errors <= cycles)%nat
  /\ ((1 <= cycles)%nat -> errors <> [])
  /\ (cycles = 0%nat -> errors = [] /\ x' = VPSA_Robust.initial_state self)
  /\ Forall above_tolerance (removelast errors)
  /\ ((length errors < cycles)%nat -> last errors 0 < 1e-3).
Proof.
  unfold VPSA_Robust.simulate_css. intros Hrun.
  destruct (css_loop_shape _ _ _ _ _ _ Hrun)
    as (new & Heq & Hlen & Hpos & Hall & Hlast).
  simpl in Heq. subst new.
  split; [exact Hlen |].
  split.
  { intros Hc Hnil. specialize (Hpos Hc). rewrite Hnil in Hpos.
    simpl in Hpos. lia. }
  split.
  { intros ->. simpl in Hrun. injection Hrun as <- <-.
    split; reflexivity. }
  split; [exact Hall | exact Hlast].
Qed.

Lemma simulate_css_history_witness :
  exists sim errors x',
    VPSA_Robust.init steady_integrator 15 = Ok sim
    /\ VPSA_Robust.simulate_css sim 1000 false = Ok (errors, x')
    /\ (length errors <= 1000)%nat
    /\ ((length errors < 1000)%nat -> last errors 0 < 1e-3).
Proof.
  eexists. eexists. eexists.
  split; [reflexivity |].
  assert (Hrun : VPSA_Robust.simulate_css
                   {| VPSA_Robust.N := 15;
                      VPSA_Robust.dae :=
                        {| dae_x := build_model.nx 15; dae_p := 5;
                           dae_ode := build_model.rhs_scaled 15 |};
                      VPSA_Robust.integrator := fun x0 _ => Ok x0 |}
                   1000 false
                 = Ok ([] ++ [0], VPSA_Robust.initial_state
                   {| VPSA_Robust.N := 15;
                      VPSA_Robust.dae :=
                        {| dae_x := build_model.nx 15; dae_p := 5;
                           dae_ode := build_model.rhs_scaled 15 |};
                      VPSA_Robust.integrator := fun x0 _ => Ok x0 |})).
  { unfold VPSA_Robust.simulate_css. change 1000%nat with (S 999).
    erewrite css_loop_stop; [| reflexivity | rewrite rel_err_self; lra].
    rewrite rel_err_self. reflexivity. }
  split; [exact Hrun |].
  destruct (simulate_css_history _ _ _ _ _ Hrun) as (H1 & _ & _ & _ & H5).
  split; [exact H1 | exact H5].
Defined.

(** ** The sweep and its results *)

Lemma last_item_nonempty (errs : list R) :
  errs <> [] -> main.last_item errs = Ok (last errs 0).
Proof. destruct errs; [contradiction | reflexivity]. Qed.

(** A pass of the sweep whose model is built and whose run returns never
    fails on [errs[-1]]: with the budget of 1000 cycles the error history
    has between 1 and 1000 entries, and the pass records their number and
    the last of them, in the dictionary entry and in the printed row alike.
    (Only an empty history, which needs a budget of zero cycles, makes
    [errs[-1]] raise.) *)
Theorem run_one_records_last_error (ca_integrator : ca_integrator_t)
  (n_val : nat) (sim : VPSA_Robust.t) (errs final_x : list R) :
  VPSA_Robust.init ca_integrator n_val = Ok sim ->
  VPSA_Robust.simulate_css sim 1000 false = Ok (errs, final_x) ->
  (1 <= length errs <= 1000)%nat
  /\ main.run_one ca_integrator n_val
     = Ok ({| main.cycles := length errs;
              main.final_error := last errs 0;
              main.x := final_x |},
           {| main.row_N := n_val;
              main.row_cycles := length errs;
              main.row_final_error := last errs 0 |})
  /\ main.last_item [] = Raise IndexError.
Proof.
  intros Hinit Hrun.
  assert (Hshape : exists new,
             errs = [] ++ new /\ (length new <= 1000)%nat
             /\ ((1 <= 1000)%nat -> (1 <= length new)%nat)).
  { unfold VPSA_Robust.simulate_css in Hrun.
    destruct (css_loop_shape _ _ _ _ _ _ Hrun) as (new & H1 & H2 & H3 & _).
    exists new. repeat split; assumption. }
  destruct Hshape as (new & Heq & Hle & Hpos). simpl in Heq. subst new.
  assert (Hlen : (1 <= length errs)%nat) by (apply Hpos; lia).
  split; [lia |]. split; [| reflexivity].
  unfold main.run_one. rewrite Hinit. cbn [bind]. rewrite Hrun. cbn [bind].
  rewrite last_item_nonempty by (intros ->; simpl in Hlen; lia).
  reflexivity.
Qed.

Lemma run_one_records_last_error_witness :
  exists sim errs final_x,
    VPSA_Robust.init steady_integrator 15 = Ok sim
    /\ VPSA_Robust.simulate_css sim 1000 false = Ok (errs, final_x)
    /\ (1 <= length errs <= 1000)%nat.
Proof.
  set (sim := {| VPSA_Robust.N := 15;
                 VPSA_Robust.dae :=
                   {| dae_x := build_model.nx 15; dae_p := 5;
                      dae_ode := build_model.rhs_scaled 15 |};
                 VPSA_Robust.integrator := fun x0 _ => Ok x0 |}).
  set (x0 := VPSA_Robust.initial_state sim).
  exists sim, ([] ++ [rel_err x0 x0]), x0.
  assert (Hinit : VPSA_Robust.init steady_integrator 15 = Ok sim)
    by reflexivity.
  assert (Hrun : VPSA_Robust.simulate_css sim 1000 false
                 = Ok ([] ++ [rel_err x0 x0], x0)).
  { unfold VPSA_Robust.simulate_css. change 1000%nat with (S 999).
    apply css_loop_stop; [reflexivity | rewrite rel_err_self; lra]. }
  split; [exact Hinit |]. split; [exact Hrun |].
  exact (proj1 (run_one_records_last_error steady_integrator 15 sim _ _
                  Hinit Hrun)).
Defined.

Lemma dict_get_set_same (results : list (nat * main.entry)) (n : nat)
  (e : main.entry) :
  dict_get (main.dict_set results n e) n = Some e.
Proof.
  induction results as [| [k e'] rest IH]; simpl.
  - rewrite Nat.eqb_refl. reflexivity.
  - destruct (Nat.eqb_spec k n) as [-> | Hne]; simpl.
    + rewrite Nat.eqb_refl. reflexivity.
    + destruct (Nat.eqb_spec k n); [contradiction | exact IH].
Qed.

Lemma dict_get_set_other (results : list (nat * main.entry)) (n m : nat)
  (e : main.entry) :
  m <> n -> dict_get (main.dict_set results n e) m = dict_get results m.
Proof.
  intros Hmn. induction results as [| [k e'] rest IH]; simpl.
  - destruct (Nat.eqb_spec n m); [congruence | reflexivity].
  - destruct (Nat.eqb_spec k n) as [-> | Hne]; simpl.
    + destruct (Nat.eqb_spec n m); [congruence | reflexivity].
    + destruct (Nat.eqb_spec k m); [reflexivity | exact IH].
Qed.

Lemma sweep_all_succeed (ca_integrator : ca_integrator_t) (Ns : list nat) :
  Forall (pass_succeeds ca_integrator) Ns ->
  forall results out,
  exists rows res,
    main.sweep ca_integrator Ns results out = (out ++ rows, Ok res)
    /\ map main.row_N rows = Ns
    /\ (forall n, In n Ns ->
          exists en r,
            main.run_one ca_integrator n = Ok (en, r)
            /\ dict_get res n = Some en /\ In r rows)
    /\ (forall m, ~ In m Ns -> dict_get res m = dict_get results m).
Proof.
  induction 1 as [| n rest [[en r] Hn] _ IH]; intros results out.
  - exists [], results. simpl. rewrite app_nil_r.
    repeat split; try reflexivity. intros n [].
  - destruct (IH (main.dict_set results n en) (out ++ [r]))
      as (rows & res & Heq & Hrows & Hkeys & Hother).
    exists (r :: rows), res. simpl. rewrite Hn, Heq, <- app_assoc.
    split; [reflexivity |].
    split; [rewrite Hrows, (run_one_row _ _ _ _ Hn); reflexivity |].
    split.
    + intros m [<- | Hin].
      * destruct (in_dec Nat.eq_dec n rest) as [Hin | Hnot].
        -- destruct (Hkeys n Hin) as (en' & r' & Hn' & Hget & Hr').
           exists en', r'. repeat split; [exact Hn' | exact Hget |].
           right. exact Hr'.
        -- exists en, r. split; [exact Hn |].
           split; [| left; reflexivity].
           rewrite (Hother n Hnot). apply dict_get_set_same.
      * destruct (Hkeys m Hin) as (en' & r' & Hm & Hget & Hr').
        exists en', r'. repeat split; [exact Hm | exact Hget |].
        right. exact Hr'.
    + intros m Hnot.
      rewrite Hother by (intros Hin; apply Hnot; right; exact Hin).
      apply dict_get_set_other. intros ->. apply Hnot. left. reflexivity.
Qed.

Lemma sweep_ok_all_succeed (ca_integrator : ca_integrator_t)
  (Ns : list nat) :
  forall results out res,
    snd (main.sweep ca_integrator Ns results out) = Ok res ->
    Forall (pass_succeeds ca_integrator) Ns.
Proof.
  induction Ns as [| n rest IH]; intros results out res Hok;
    [constructor |].
  simpl in Hok.
  destruct (main.run_one ca_integrator n) as [[en r] | e] eqn:Hn;
    [| discriminate Hok].
  constructor; [exists (en, r); exact Hn |].
  exact (IH _ _ _ Hok).
Qed.

(** The script completes its sweep exactly when every pass succeeds.  Then
    one row is printed per mesh size, in the order of [N_values], and the
    dictionary holds, under each mesh size, the entry of that pass: the
    reads [results[n]] of the plotting code after the loop find their
    key. *)
Theorem sweep_completes_iff_all_pass (ca_integrator : ca_integrator_t) :
  ((exists res, snd (main.run ca_integrator) = Ok res)
   <-> Forall (pass_succeeds ca_integrator) main.N_values)
  /\ (Forall (pass_succeeds ca_integrator) main.N_values ->
      exists rows res,
        main.run ca_integrator = (rows, Ok res)
        /\ map main.row_N rows = main.N_values
        /\ forall n, In n main.N_values ->
             exists en r,
               main.run_one ca_integrator n = Ok (en, r)
               /\ dict_get res n = Some en /\ In r rows).
Proof.
  assert (Hall : Forall (pass_succeeds ca_integrator) main.N_values ->
            exists rows res,
              main.run ca_integrator = (rows, Ok res)
              /\ map main.row_N rows = main.N_values
              /\ forall n, In n main.N_values ->
                   exists en r,
                     main.run_one ca_integrator n = Ok (en, r)
                     /\ dict_get res n = Some en /\ In r rows).
  { intros Hpass.
    destruct (sweep_all_succeed ca_integrator main.N_values Hpass [] [])
      as (rows & res & Heq & Hrows & Hkeys & _).
    exists rows, res. split; [exact Heq |]. split; assumption. }
  split; [| exact Hall].
  split.
  - intros [res Hok]. exact (sweep_ok_all_succeed _ _ _ _ _ Hok).
  - intros Hpass. destruct (Hall Hpass) as (rows & res & Heq & _).
    exists res. rewrite Heq. reflexivity.
Qed.

Lemma steady_pass (n : nat) :
  (1 <= n)%nat -> pass_succeeds steady_integrator n.
Proof.
  intros Hn. unfold pass_succeeds, main.run_one, VPSA_Robust.init.
  destruct (Nat.eqb_spec n 0); [lia |].
  cbn [bind]. unfold VPSA_Robust.simulate_css.
  change 1000%nat with (S 999).
  erewrite css_loop_stop; [| reflexivity | rewrite rel_err_self; lra].
  cbn [bind app main.last_item]. eexists. reflexivity.
Qed.

Lemma sweep_completes_iff_all_pass_witness :
  exists rows res,
    main.run steady_integrator = (rows, Ok res)
    /\ map main.row_N rows = main.N_values.
Proof.
  assert (Hpass : Forall (pass_succeeds steady_integrator) main.N_values).
  { unfold main.N_values. repeat constructor; apply steady_pass; lia. }
  destruct (proj2 (sweep_completes_iff_all_pass steady_integrator) Hpass)
    as (rows & res & Heq & Hrows & _).
  exists rows, res. split; assumption.
Defined.

(** ** The two ends of the column *)

(** The boundary velocities run down the pressure difference between the
    boundary and the end cell: the inlet velocity is positive (into the
    column) when the boundary pressure is above the pressure of the first
    cell and negative when it is below; the outlet velocity is positive
    (out of the column) when the last cell is above the boundary pressure
    and negative when it is below. *)
Theorem boundary_velocity_direction (N : nat) (x u : list R) (tau : R) :
  (1 <= N)%nat ->
  let P := build_model.P N x in
  let P_b := build_model.P_bound u tau in
  (P@0 < P_b -> 0 < build_model.v_in N x u tau)
  /\ (P_b < P@0 -> build_model.v_in N x u tau < 0)
  /\ (P_b < P@(N - 1) -> 0 < build_model.v_out N x u tau)
  /\ (P@(N - 1) < P_b -> build_model.v_out N x u tau < 0).
Proof.
  intros HN P P_b.
  pose proof K_darcy_pos as HK.
  assert (Hh : 0 < build_model.dz N / 2)
    by (pose proof (dz_pos N HN); lra).
  assert (Hvm : build_model.v_max = 5) by (unfold build_model.v_max; lra).
  assert (Hpos : forall d, 0 < d ->
            0 < self.K_darcy * d / (build_model.dz N / 2) / 5).
  { intros d Hd. apply Rdiv_lt_0_compat; [| lra].
    apply Rdiv_lt_0_compat; [| exact Hh].
    apply Rmult_lt_0_compat; assumption. }
  unfold build_model.v_in, build_model.v_out, build_model.v_in_raw,
    build_model.v_out_raw. fold P P_b. rewrite Hvm.
  split; [| split; [| split]]; intros Hlt.
  - assert (Ht : 0 < tanh (- self.K_darcy * (P@0 - P_b)
                           / (build_model.dz N / 2) / 5)).
    { apply tanh_pos.
      replace (- self.K_darcy * (P@0 - P_b) / (build_model.dz N / 2) / 5)
        with (self.K_darcy * (P_b - P@0) / (build_model.dz N / 2) / 5)
        by (unfold Rdiv; ring).
      apply Hpos. lra. }
    lra.
  - assert (Ht : tanh (- self.K_darcy * (P@0 - P_b)
                       / (build_model.dz N / 2) / 5) < 0).
    { apply tanh_neg.
      replace (- self.K_darcy * (P@0 - P_b) / (build_model.dz N / 2) / 5)
        with (- (self.K_darcy * (P@0 - P_b) / (build_model.dz N / 2) / 5))
        by (unfold Rdiv; ring).
      assert (0 < self.K_darcy * (P@0 - P_b) / (build_model.dz N / 2) / 5)
        by (apply Hpos; lra).
      lra. }
    lra.
  - assert (Ht : 0 < tanh (- self.K_darcy * (P_b - P@(N - 1))
                           / (build_model.dz N / 2) / 5)).
    { apply tanh_pos.
      replace (- self.K_darcy * (P_b - P@(N - 1))
               / (build_model.dz N / 2) / 5)
        with (self.K_darcy * (P@(N - 1) - P_b) / (build_model.dz N / 2) / 5)
        by (unfold Rdiv; ring).
      apply Hpos. lra. }
    lra.
  - assert (Ht : tanh (- self.K_darcy * (P_b - P@(N - 1))
                       / (build_model.dz N / 2) / 5) < 0).
    { apply tanh_neg.
      replace (- self.K_darcy * (P_b - P@(N - 1))
               / (build_model.dz N / 2) / 5)
        with (- (self.K_darcy * (P_b - P@(N - 1))
                 / (build_model.dz N / 2) / 5))
        by (unfold Rdiv; ring).
      assert (0 < self.K_darcy * (P_b - P@(N - 1))
                  / (build_model.dz N / 2) / 5)
        by (apply Hpos; lra).
      lra. }
    lra.
Qed.

Lemma boundary_velocity_direction_witness :
  let x := [0; 0; 0.1; 0.2; 298.15; 298.15; 0; 0; 1; 1] in
  let u := [1; 15; 0; 1e4; 1e5] in
  0 < build_model.v_in 2 x u 0.5.
Proof.
  intros x u.
  assert (HN : (1 <= 2)%nat) by lia.
  apply (proj1 (boundary_velocity_direction 2 x u 0.5 HN)).
  destruct (P_bound_threshold u 0.5) as (_ & H & _).
  rewrite H by (unfold build_model.step_type, u; simpl; lra).
  unfold build_model.P, build_model.P_bar, build_model.P_high, slice, x, u,
    self.P_scale.
  simpl. lra.
Defined.



(** * The isotherm over the range of the doubles *)

Lemma pow2_IZR (n : nat) : 2 ^ n = IZR (2 ^ Z.of_nat n).
Proof. rewrite <- pow_IZR. reflexivity. Qed.

Lemma DBL_OVERFLOW_IZR : DBL_OVERFLOW = IZR (2 ^ 1024 - 2 ^ 970).
Proof.
  unfold DBL_OVERFLOW. rewrite minus_IZR.
  rewrite (pow2_IZR 1024), (pow2_IZR 970). reflexivity.
Qed.

Lemma DBL_OVERFLOW_big : 1e307 < DBL_OVERFLOW.
Proof.
  apply Rle_lt_trans with (IZR (10 ^ 307)); [lra |].
  rewrite DBL_OVERFLOW_IZR. apply IZR_lt. vm_compute. reflexivity.
Qed.


Lemma to_double_in_range (r : R) : in_range r -> to_double r = Finite r.
Proof.
  intros [Hlo Hhi]. unfold to_double.
  destruct (Rle_dec DBL_OVERFLOW r); [lra |].
  destruct (Rle_dec r (- DBL_OVERFLOW)); [lra | reflexivity].
Qed.


Lemma is_zero_false (r : R) : r <> 0 -> is_zero r = false.
Proof.
  intros H. unfold is_zero. destruct (Req_dec_T r 0); [contradiction | reflexivity].
Qed.

Lemma is_zero_true : is_zero 0 = true.
Proof. unfold is_zero. destruct (Req_dec_T 0 0); [reflexivity | congruence]. Qed.


Lemma dadd_finite (x y : R) :
  in_range (x + y) -> dadd (Finite x) (Finite y) = Finite (x + y).
Proof. apply to_double_in_range. Qed.

Lemma dsub_finite (x y : R) :
  in_range (x - y) -> dsub (Finite x) (Finite y) = Finite (x - y).
Proof. apply to_double_in_range. Qed.

Lemma dmul_finite (x y : R) :
  in_range (x * y) -> dmul (Finite x) (Finite y) = Finite (x * y).
Proof. apply to_double_in_range. Qed.

Lemma dexp_finite (x : R) :
  in_range (exp x) -> dexp (Finite x) = Finite (exp x).
Proof. apply to_double_in_range. Qed.

Lemma ddiv_finite (x y : R) :
  y <> 0 -> in_range (x / y) -> ddiv (Finite x) (Finite y) = Finite (x / y).
Proof.
  intros Hy Hr. unfold ddiv. rewrite (is_zero_false y Hy).
  apply to_double_in_range, Hr.
Qed.

Lemma pydiv_finite (x y : R) :
  y <> 0 -> in_range (x / y) ->
  pydiv (Finite x) (Finite y) = Ok (Finite (x / y)).
Proof.
  intros Hy Hr. unfold pydiv. rewrite (is_zero_false y Hy).
  rewrite ddiv_finite by assumption. reflexivity.
Qed.

Ltac split_ranges :=
  repeat match goal with
         | H : Forall in_range (_ :: _) |- _ =>
             let H1 := fresh "Hr" in
             let H2 := fresh "Hrest" in
             apply Forall_cons_iff in H; destruct H as [H1 H2]
         end.

Ltac eval_double :=
  repeat first
    [ rewrite dmul_finite by assumption
    | rewrite dadd_finite by assumption
    | rewrite dsub_finite by assumption
    | rewrite dexp_finite by assumption
    | rewrite pydiv_finite by assumption
    | rewrite ddiv_finite by assumption
    | progress cbn [bind dneg] ].

(** As long as no intermediate result overflows, the isotherm over the
    doubles returns the loadings of the isotherm over the reals. *)
Lemma get_isotherm_float_follows (c_total y T : R) :
  self.R_gas * T <> 0 ->
  denom1_of (c_total * y) (c_total * (1 - y)) T <> 0 ->
  denom2_of (c_total * y) T <> 0 ->
  Forall in_range (isotherm_intermediates c_total y T) ->
  get_isotherm_float (Finite c_total) (Finite y) (Finite T)
  = Ok (Finite (fst (get_isotherm c_total y T)),
        Finite (snd (get_isotherm c_total y T))).
Proof.
  intros HRT Hd1 Hd2 Hall.
  unfold denom1_of, denom2_of, b0_of, d0_of, b1_of, arrhenius in Hd1, Hd2.
  unfold isotherm_intermediates in Hall. cbv zeta in Hall.
  split_ranges.
  unfold get_isotherm_float. cbv zeta.
  eval_double.
  reflexivity.
Qed.

Lemma get_isotherm_numeric_float_follows (P y T : R) :
  self.R_gas * T <> 0 ->
  denom1_of (P / (self.R_gas * T) * y) (P / (self.R_gas * T) * (1 - y)) T
  <> 0 ->
  denom2_of (P / (self.R_gas * T) * y) T <> 0 ->
  in_range (P / (self.R_gas * T)) ->
  Forall in_range (isotherm_intermediates (P / (self.R_gas * T)) y T) ->
  get_isotherm_numeric_float (Finite P) (Finite y) (Finite T)
  = Ok (Finite (fst (get_isotherm_numeric P y T)),
        Finite (snd (get_isotherm_numeric P y T))).
Proof.
  intros HRT Hd1 Hd2 Hc Hall.
  unfold denom1_of, denom2_of, b0_of, d0_of, b1_of, arrhenius in Hd1, Hd2.
  unfold isotherm_intermediates in Hall. cbv zeta in Hall.
  split_ranges.
  unfold get_isotherm_numeric_float. cbv zeta.
  eval_double.
  reflexivity.
Qed.

Lemma exp_le (a b : R) : a <= b -> exp a <= exp b.
Proof.
  intros [Hlt | ->]; [left; apply exp_increasing, Hlt | right; reflexivity].
Qed.

Lemma below_exp (a : R) : 0 < a -> a < exp a.
Proof. intros Ha. pose proof (exp_ineq1 a). lra. Qed.

Lemma quotient_le_numerator (a d : R) : 0 <= a -> 1 <= d -> 0 <= a / d <= a.
Proof.
  intros Ha Hd.
  assert (Hinv : 0 < / d <= 1).
  { split; [apply Rinv_0_lt_compat; lra |].
    rewrite <- Rinv_1. apply Rinv_le_contravar; lra. }
  unfold Rdiv. nra.
Qed.

Lemma product_bounds (a b A B : R) :
  0 <= a <= A -> 0 <= b <= B -> 0 <= a * b <= A * B.
Proof. intros Ha Hb. nra. Qed.

Lemma arrhenius_exponent (dU T : R) :
  0 < T -> dU < 0 -> self.dU_b0 <= dU ->
  0 < - dU / (self.R_gas * T) <= - self.dU_b0 / (self.R_gas * T).
Proof.
  intros HT HdU Hle.
  assert (HRT : 0 < / (self.R_gas * T)).
  { apply Rinv_0_lt_compat, Rmult_lt_0_compat;
      [unfold self.R_gas; lra | exact HT]. }
  unfold Rdiv. nra.
Qed.

(** On the domain, when the two bounds of [no_overflow] hold, no
    intermediate result of the isotherm overflows. *)
Lemma intermediates_in_range (c_total y T : R) :
  0 <= c_total -> 0 <= y <= 1 -> 0 < T ->
  no_overflow c_total T ->
  Forall in_range (isotherm_intermediates c_total y T).
Proof.
  intros Hc Hy HT [HRT HB].
  pose proof DBL_OVERFLOW_big as Hbig.
  assert (HRT0 : 0 < self.R_gas * T)
    by (apply Rmult_lt_0_compat; [unfold self.R_gas; lra | exact HT]).
  destruct (arrhenius_exponent self.dU_b0 T HT) as [Ha0 _];
    [unfold self.dU_b0; lra | lra |].
  destruct (arrhenius_exponent self.dU_d0 T HT) as [Ha1 Ha1'];
    [unfold self.dU_d0; lra | unfold self.dU_d0, self.dU_b0; lra |].
  destruct (arrhenius_exponent self.dU_b1 T HT) as [Ha2 Ha2'];
    [unfold self.dU_b1; lra | unfold self.dU_b1, self.dU_b0; lra |].
  unfold isotherm_intermediates. cbv zeta.
  set (RT := self.R_gas * T) in *.
  set (a0 := - self.dU_b0 / RT) in *.
  set (a1 := - self.dU_d0 / RT) in *.
  set (a2 := - self.dU_b1 / RT) in *.
  pose proof (below_exp a0 Ha0) as Hx0.
  pose proof (exp_le a1 a0 Ha1') as He1.
  pose proof (exp_le a2 a0 Ha2') as He2.
  pose proof (exp_pos a1) as Hp1. pose proof (exp_pos a2) as Hp2.
  set (E0 := exp a0) in *. set (E1 := exp a1) in *. set (E2 := exp a2) in *.
  set (c0 := c_total * y). set (c1 := c_total * (1 - y)).
  assert (Hc0 : 0 <= c0 <= c_total) by (unfold c0; nra).
  assert (Hc1 : 0 <= c1 <= c_total) by (unfold c1; nra).
  assert (HEC : 0 <= E0 * c_total) by nra.
  assert (Hb0 : 0 <= self.b0_0 * E0 <= E0) by (unfold self.b0_0; nra).
  assert (Hd0 : 0 <= self.d0_0 * E1 <= E0) by (unfold self.d0_0; nra).
  assert (Hb1 : 0 <= self.b0_1 * E2 <= E0) by (unfold self.b0_1; nra).
  set (b0 := self.b0_0 * E0) in *.
  set (d0 := self.d0_0 * E1) in *.
  set (b1 := self.b0_1 * E2) in *.
  pose proof (product_bounds _ _ _ _ Hb0 Hc0) as Hb0c0.
  pose proof (product_bounds _ _ _ _ Hb1 Hc1) as Hb1c1.
  pose proof (product_bounds _ _ _ _ Hd0 Hc0) as Hd0c0.
  assert (Hq0 : 0 <= self.q_sb0 * b0 <= 3.09 * E0) by (unfold self.q_sb0; nra).
  assert (Hq1 : 0 <= self.q_sd0 * d0 <= 2.54 * E0) by (unfold self.q_sd0; nra).
  assert (Hq2 : 0 <= self.q_sb1 * b1 <= 5.84 * E0) by (unfold self.q_sb1; nra).
  pose proof (product_bounds _ _ _ _ Hq0 Hc0) as Hn0.
  pose proof (product_bounds _ _ _ _ Hq1 Hc0) as Hn1.
  pose proof (product_bounds _ _ _ _ Hq2 Hc1) as Hn2.
  assert (Hden1 : 1 <= 1 + b0 * c0 + b1 * c1) by lra.
  assert (Hden2 : 1 <= 1 + d0 * c0) by lra.
  pose proof (quotient_le_numerator _ _ (proj1 Hn0) Hden1) as Ht0.
  pose proof (quotient_le_numerator _ _ (proj1 Hn1) Hden2) as Ht1.
  pose proof (quotient_le_numerator _ _ (proj1 Hn2) Hden1) as Ht2.
  replace (7 * (1 + E0) * (1 + c_total))
    with (7 + 7 * E0 + 7 * c_total + 7 * (E0 * c_total)) in HB by ring.
  replace (3.09 * E0 * c_total) with (3.09 * (E0 * c_total)) in Hn0 by ring.
  replace (2.54 * E0 * c_total) with (2.54 * (E0 * c_total)) in Hn1 by ring.
  replace (5.84 * E0 * c_total) with (5.84 * (E0 * c_total)) in Hn2 by ring.
  set (EC := E0 * c_total) in *.
  set (n0 := self.q_sb0 * b0 * c0) in *.
  set (n1 := self.q_sd0 * d0 * c0) in *.
  set (n2 := self.q_sb1 * b1 * c1) in *.
  set (t0 := n0 / (1 + b0 * c0 + b1 * c1)) in *.
  set (t1 := n1 / (1 + d0 * c0)) in *.
  set (t2 := n2 / (1 + b0 * c0 + b1 * c1)) in *.
  set (p0 := b0 * c0) in *. set (p1 := b1 * c1) in *.
  set (p2 := d0 * c0) in *.
  set (s0 := self.q_sb0 * b0) in *. set (s1 := self.q_sd0 * d0) in *.
  set (s2 := self.q_sb1 * b1) in *.
  repeat (apply Forall_cons; [unfold in_range; lra |]).
  apply Forall_nil.
Qed.

Lemma exp_nat_le (n : nat) : exp (INR n) <= 3 ^ n.
Proof.
  induction n as [| n IH].
  - simpl. rewrite exp_0. lra.
  - rewrite S_INR, exp_plus. simpl pow.
    pose proof exp_le_3 as H3. pose proof (exp_pos (INR n)) as Hp.
    pose proof (exp_pos 1) as Hp1. nra.
Qed.

(** An explicit part of the domain where nothing overflows: temperatures
    from 7 K and concentrations up to 1e6. *)
Lemma no_overflow_from_7K (c_total T : R) :
  7 <= T <= 1e300 -> 0 <= c_total <= 1e6 -> no_overflow c_total T.
Proof.
  intros HT Hc. pose proof DBL_OVERFLOW_big as Hbig. split.
  - unfold self.R_gas. lra.
  - assert (HRT : 0 < / (self.R_gas * T)).
    { apply Rinv_0_lt_compat, Rmult_lt_0_compat;
        [unfold self.R_gas |]; lra. }
    assert (Ha : - self.dU_b0 / (self.R_gas * T) <= INR 630).
    { replace (INR 630) with 630 by (rewrite INR_IZR_INZ; reflexivity).
      apply (Rmult_le_reg_r (self.R_gas * T));
        [apply Rinv_0_lt_compat in HRT; rewrite Rinv_inv in HRT; exact HRT |].
      unfold Rdiv. rewrite Rmult_assoc, Rinv_l
        by (unfold self.R_gas; nra).
      unfold self.dU_b0, self.R_gas. lra. }
    pose proof (Rle_trans _ _ _ (exp_le _ _ Ha) (exp_nat_le 630)) as HE.
    pose proof (exp_pos (- self.dU_b0 / (self.R_gas * T))) as HEp.
    set (E := exp (- self.dU_b0 / (self.R_gas * T))) in *.
    assert (Hnum : 7 * (1 + 3 ^ 630) * (1 + 1e6) < DBL_OVERFLOW).
    { rewrite DBL_OVERFLOW_IZR.
      replace (1 + 1e6) with (IZR 1000001) by lra.
      replace (7 * (1 + 3 ^ 630) * IZR 1000001)
        with (IZR (7 * (1 + 3 ^ Z.of_nat 630) * 1000001))
        by (rewrite !mult_IZR, plus_IZR, <- pow_IZR; reflexivity).
      apply IZR_lt. vm_compute. reflexivity. }
    assert (Hp3 : 0 < 3 ^ 630) by (apply pow_lt; lra).
    set (M := 3 ^ 630) in *.
    apply Rle_lt_trans with (7 * (1 + M) * (1 + 1e6)); [| exact Hnum].
    nra.
Qed.










(** On the domain, without overflow, the isotherm on floats returns the
    loadings of the isotherm over the reals. *)
Lemma get_isotherm_float_value (c_total y T : R) :
  0 <= c_total -> 0 <= y <= 1 -> 0 < T -> no_overflow c_total T ->
  get_isotherm_float (Finite c_total) (Finite y) (Finite T)
  = Ok (Finite (fst (get_isotherm c_total y T)),
        Finite (snd (get_isotherm c_total y T))).
Proof.
  intros Hc Hy HT Hno.
  assert (H0 : 0 <= c_total * y) by nra.
  assert (H1 : 0 <= c_total * (1 - y)) by nra.
  pose proof (denom1_of_ge_1 _ _ T H0 H1) as Hd1.
  pose proof (denom2_of_ge_1 _ T H0) as Hd2.
  apply get_isotherm_float_follows.
  - unfold self.R_gas. nra.
  - lra.
  - lra.
  - apply intermediates_in_range; assumption.
Qed.

Lemma get_isotherm_numeric_float_value (P y T : R) :
  0 <= P -> 0 <= y <= 1 -> 0 < T ->
  no_overflow (P / (self.R_gas * T)) T ->
  get_isotherm_numeric_float (Finite P) (Finite y) (Finite T)
  = Ok (Finite (fst (get_isotherm_numeric P y T)),
        Finite (snd (get_isotherm_numeric P y T))).
Proof.
  intros HP Hy HT Hno.
  assert (HRT : 0 < self.R_gas * T) by (unfold self.R_gas; nra).
  assert (Hc : 0 <= P / (self.R_gas * T)).
  { unfold Rdiv. apply Rmult_le_pos; [exact HP |].
    left. apply Rinv_0_lt_compat, HRT. }
  set (c := P / (self.R_gas * T)) in *.
  assert (H0 : 0 <= c * y) by nra.
  assert (H1 : 0 <= c * (1 - y)) by nra.
  pose proof (denom1_of_ge_1 _ _ T H0 H1) as Hd1.
  pose proof (denom2_of_ge_1 _ T H0) as Hd2.
  assert (Hcr : in_range c).
  { destruct Hno as [_ HB].
    pose proof (exp_pos (- self.dU_b0 / (self.R_gas * T))) as HE.
    unfold in_range. nra. }
  apply get_isotherm_numeric_float_follows; fold c.
  - lra.
  - lra.
  - lra.
  - exact Hcr.
  - apply intermediates_in_range; assumption.
Qed.

Lemma no_overflow_smaller (c c' T : R) :
  0 <= c' <= c -> no_overflow c T -> no_overflow c' T.
Proof.
  intros Hc [H1 H2]. split; [exact H1 |].
  pose proof (exp_pos (- self.dU_b0 / (self.R_gas * T))) as HE.
  nra.
Qed.



(** On floats, at a temperature above zero at which nothing overflows, an
    absent component is not adsorbed: no gas gives the loadings (0, 0),
    mole fraction 0 gives carbon-dioxide loading 0 and mole fraction 1
    gives nitrogen loading 0; the numeric isotherm at pressure 0 gives
    (0, 0) as well. *)
Theorem isotherm_absent_component (c_total y T : R) :
  0 <= c_total -> 0 <= y <= 1 -> 0 < T -> no_overflow c_total T ->
  get_isotherm_float (Finite 0) (Finite y) (Finite T)
  = Ok (Finite 0, Finite 0)
  /\ (exists q1,
        get_isotherm_float (Finite c_total) (Finite 0) (Finite T)
        = Ok (Finite 0, Finite q1))
  /\ (exists q0,
        get_isotherm_float (Finite c_total) (Finite 1) (Finite T)
        = Ok (Finite q0, Finite 0))
  /\ get_isotherm_numeric_float (Finite 0) (Finite y) (Finite T)
     = Ok (Finite 0, Finite 0).
Proof.
  intros Hc Hy HT Hno.
  assert (Hno0 : no_overflow 0 T)
    by (apply (no_overflow_smaller c_total); [lra | exact Hno]).
  destruct (real_absent_component c_total y T) as (E0 & Ey0 & Ey1 & En).
  split.
  { rewrite get_isotherm_float_value by (assumption || lra).
    rewrite E0. reflexivity. }
  split.
  { exists (snd (get_isotherm c_total 0 T)).
    rewrite get_isotherm_float_value by (assumption || lra).
    rewrite Ey0. reflexivity. }
  split.
  { exists (fst (get_isotherm c_total 1 T)).
    rewrite get_isotherm_float_value by (assumption || lra).
    rewrite Ey1. reflexivity. }
  rewrite get_isotherm_numeric_float_value; try assumption; try lra.
  - rewrite En. reflexivity.
  - replace (0 / (self.R_gas * T)) with 0 by (unfold Rdiv; ring).
    exact Hno0.
Qed.

Lemma isotherm_absent_component_witness :
  get_isotherm_float (Finite 0) (Finite 0.15) (Finite 298.15)
  = Ok (Finite 0, Finite 0)
  /\ get_isotherm_numeric_float (Finite 0) (Finite 0.15) (Finite 298.15)
     = Ok (Finite 0, Finite 0).
Proof.
  assert (Hc : 0 <= 40) by lra.
  assert (Hy : 0 <= 0.15 <= 1) by lra.
  assert (HT : 0 < 298.15) by lra.
  assert (Hno : no_overflow 40 298.15) by (apply no_overflow_from_7K; lra).
  destruct (isotherm_absent_component 40 0.15 298.15 Hc Hy HT Hno)
    as (H1 & _ & _ & H4).
  split; assumption.
Defined.

(** At temperature zero both isotherms raise [ZeroDivisionError] when
    called on floats, at the first quotient by [R_gas * T], whatever the
    other two arguments are. *)
Theorem isotherm_zero_temperature_raises (a y : double) :
  get_isotherm_float a y (Finite 0) = Raise ZeroDivisionError
  /\ get_isotherm_numeric_float a y (Finite 0) = Raise ZeroDivisionError.
Proof.
  pose proof DBL_OVERFLOW_big as Hbig.
  assert (HRT : dmul (Finite self.R_gas) (Finite 0) = Finite 0).
  { rewrite dmul_finite by (unfold in_range, self.R_gas; lra).
    f_equal. ring. }
  assert (Hdiv : forall b, pydiv b (Finite 0) = Raise ZeroDivisionError).
  { intros b. unfold pydiv. rewrite is_zero_true. reflexivity. }
  unfold get_isotherm_float, get_isotherm_numeric_float. cbv zeta.
  rewrite HRT, !Hdiv. split; reflexivity.
Qed.
